(** * Provider configuration of the ElevenLabs settings page and the LLM store

    A shallow embedding of the TypeScript sources

    - [src/unnamed/part_001]: the [<script setup>] block of the ElevenLabs
      provider settings page (computed getters and setters over the
      persisted [providers] record, the settings watcher, the voice
      playground and the reset handler);
    - [src/stores/llm.ts]: the [useLLM] store.

    JavaScript values are modelled by [JsVal]; numbers are IEEE 754 binary64
    values ([PrimFloat.float]), objects are finite maps from property names
    to values.  Mutation of the reactive [providers] object is modelled by
    explicit state passing; a statement that can throw returns an
    [Outcome].  Objects are values here, so where the page makes two
    places hold one object (the reset handler does, with the
    [voiceSettings] of the default options), the sharing is kept track of
    separately, in [Session]. *)

From Stdlib Require Import PrimFloat.
From stdpp Require Import base option strings pretty list gmap.

Set Warnings "-register-all,-inexact-float".

(** ** JavaScript values and the operators the sources use *)

Module Js.

Inductive JsVal : Type :=
  | JUndefined
  | JNull
  | JBool (b : bool)
  | JNum (x : float)
  | JStr (s : string)
  | JObj (o : gmap string JsVal).

(** What a [throw] carries: a [TypeError] raised by the engine, an
    [Error] instance with its message, or any other value. *)
Inductive JsError : Type :=
  | TypeError
  | Error (message : string)
  | NonError (v : JsVal).

(** Completion of a statement or call: a value, or a thrown exception
    (for an [async] function: a rejected promise). *)
Inductive Outcome (A : Type) : Type :=
  | Returned (a : A)
  | Thrown (e : JsError).
Arguments Returned {A} a.
Arguments Thrown {A} e.

#[global] Instance outcome_ret : MRet Outcome := λ A a, Returned a.

(** Sequencing: a thrown exception skips the rest of the block. *)
#[global] Instance outcome_bind : MBind Outcome := λ A B k m,
  match m with
  | Returned a => k a
  | Thrown e => Thrown e
  end.

(** [ToBoolean]: [undefined], [null], [false], [+0], [-0], [NaN] and the
    empty string are falsy, everything else (every object) is truthy. *)
Definition truthy (v : JsVal) : bool :=
  match v with
  | JUndefined | JNull => false
  | JBool b => b
  | JNum x => negb (PrimFloat.is_zero x || PrimFloat.is_nan x)
  | JStr s => negb (String.eqb s "")
  | JObj _ => true
  end.

Definition nullish (v : JsVal) : bool :=
  match v with
  | JUndefined | JNull => true
  | _ => false
  end.

(** [a || b] *)
Definition or (a b : JsVal) : JsVal := if truthy a then a else b.

(** [a ?? b] *)
Definition coalesce (a b : JsVal) : JsVal := if nullish a then b else a.

(** [a !== false] *)
Definition not_false (a : JsVal) : bool :=
  match a with
  | JBool false => false
  | _ => true
  end.

(** [o[k]] on an object: a missing property reads as [undefined]. *)
Definition prop (o : gmap string JsVal) (k : string) : JsVal :=
  default JUndefined (o !! k).

(** [v?.k].  On [undefined] and [null] the chain short-circuits to
    [undefined]; on an object it reads the property; on a primitive it
    reads a property of the wrapper prototype, which is [undefined] for
    every property name read in these sources. *)
Definition opt (v : JsVal) (k : string) : JsVal :=
  match v with
  | JObj o => prop o k
  | _ => JUndefined
  end.

(** [target.k = v] in module (strict) code: creating a property on a
    primitive, or on [undefined]/[null], throws a [TypeError]. *)
Definition assign (target : JsVal) (k : string) (v : JsVal) : Outcome JsVal :=
  match target with
  | JObj o => Returned (JObj (<[k := v]> o))
  | _ => Thrown TypeError
  end.

Definition is_obj (v : JsVal) : bool :=
  match v with
  | JObj _ => true
  | _ => false
  end.

(** Own enumerable string-keyed properties of a string: its characters
    under their decimal indices. *)
Fixpoint chars_from (i : nat) (s : string) : gmap string JsVal :=
  match s with
  | EmptyString => ∅
  | String c s' => <[pretty i := JStr (String c EmptyString)]> (chars_from (S i) s')
  end.

(** [{...v}]: the own enumerable properties of [v]; [undefined], [null],
    numbers and booleans contribute none. *)
Definition spread (v : JsVal) : gmap string JsVal :=
  match v with
  | JObj o => o
  | JStr s => chars_from 0 s
  | _ => ∅
  end.

End Js.

Import Js.

(** ** The settings page: [src/unnamed/part_001] *)

Record ProviderMetadata : Type := {
  localizedName : string;
  icon : string;
  (** [defaultOptions?: Record<string, unknown>] *)
  defaultOptions : option (gmap string JsVal);
}.

Definition providerId : string := "elevenlabs".

(** [providerMetadata.value?.defaultOptions?.baseUrl] *)
Definition default_baseUrl (providerMetadata : option ProviderMetadata) : JsVal :=
  match providerMetadata with
  | Some md =>
      match defaultOptions md with
      | Some o => prop o "baseUrl"
      | None => JUndefined
      end
  | None => JUndefined
  end.

(** [providers.value[providerId]] *)
Definition record (providers : gmap string JsVal) : JsVal :=
  prop providers providerId.

(** [(providers.value[providerId]?.voiceSettings as any)?.k] *)
Definition voice_field (providers : gmap string JsVal) (k : string) : JsVal :=
  opt (opt (record providers) "voiceSettings") k.

(** *** Computed getters *)

Definition apiKey_get (providers : gmap string JsVal) : JsVal :=
  or (opt (record providers) "apiKey") (JStr "").

Definition baseUrl_get (providerMetadata : option ProviderMetadata)
    (providers : gmap string JsVal) : JsVal :=
  or (or (opt (record providers) "baseUrl") (default_baseUrl providerMetadata))
     (JStr "").

Definition similarityBoost_get (providers : gmap string JsVal) : JsVal :=
  coalesce (voice_field providers "similarityBoost") (JNum 0.75).

Definition stability_get (providers : gmap string JsVal) : JsVal :=
  coalesce (voice_field providers "stability") (JNum 0.5).

Definition speed_get (providers : gmap string JsVal) : JsVal :=
  coalesce (voice_field providers "speed") (JNum 1.0).

Definition style_get (providers : gmap string JsVal) : JsVal :=
  coalesce (voice_field providers "style") (JNum 0).

Definition useSpeakerBoost_get (providers : gmap string JsVal) : JsVal :=
  JBool (not_false (voice_field providers "useSpeakerBoost")).

(** *** Computed setters *)

(** [if (!providers.value[providerId]) providers.value[providerId] = {}] *)
Definition ensure_record (providers : gmap string JsVal) : gmap string JsVal :=
  if truthy (record providers) then providers
  else <[providerId := JObj ∅]> providers.

(** [providers.value[providerId].k = v] *)
Definition assign_record (k : string) (v : JsVal)
    (providers : gmap string JsVal) : Outcome (gmap string JsVal) :=
  r ← assign (record providers) k v;
  Returned (<[providerId := r]> providers).

(** [if (!providers.value[providerId].voiceSettings)
       providers.value[providerId].voiceSettings = {}] *)
Definition ensure_voiceSettings (providers : gmap string JsVal)
    : Outcome (gmap string JsVal) :=
  if truthy (opt (record providers) "voiceSettings") then Returned providers
  else assign_record "voiceSettings" (JObj ∅) providers.

(** [providers.value[providerId].voiceSettings.k = v] *)
Definition assign_voice (k : string) (v : JsVal)
    (providers : gmap string JsVal) : Outcome (gmap string JsVal) :=
  vs ← assign (opt (record providers) "voiceSettings") k v;
  assign_record "voiceSettings" vs providers.

Definition apiKey_set (value : JsVal) (providers : gmap string JsVal)
    : Outcome (gmap string JsVal) :=
  assign_record "apiKey" value (ensure_record providers).

Definition baseUrl_set (value : JsVal) (providers : gmap string JsVal)
    : Outcome (gmap string JsVal) :=
  assign_record "baseUrl" value (ensure_record providers).

Definition similarityBoost_set (value : JsVal) (providers : gmap string JsVal)
    : Outcome (gmap string JsVal) :=
  p ← ensure_voiceSettings (ensure_record providers);
  assign_voice "similarityBoost" value p.

Definition stability_set (value : JsVal) (providers : gmap string JsVal)
    : Outcome (gmap string JsVal) :=
  p ← ensure_voiceSettings (ensure_record providers);
  assign_voice "stability" value p.

Definition speed_set (value : JsVal) (providers : gmap string JsVal)
    : Outcome (gmap string JsVal) :=
  p ← ensure_voiceSettings (ensure_record providers);
  assign_voice "speed" value p.

(** The last statement of this setter is
    [providers.value[providerId].style = value]: it writes the record
    itself, not its [voiceSettings]. *)
Definition style_set (value : JsVal) (providers : gmap string JsVal)
    : Outcome (gmap string JsVal) :=
  p ← ensure_voiceSettings (ensure_record providers);
  assign_record "style" value p.

Definition useSpeakerBoost_set (value : JsVal) (providers : gmap string JsVal)
    : Outcome (gmap string JsVal) :=
  p ← ensure_voiceSettings (ensure_record providers);
  assign_voice "useSpeakerBoost" value p.

(** *** The effective voice settings

    The object literal built from the five getters, as the watcher stores
    it and as [generateTestSpeech] passes it to the provider. *)
Definition voiceSettings_get (providers : gmap string JsVal) : gmap string JsVal :=
  <["similarityBoost" := similarityBoost_get providers]>
  (<["stability" := stability_get providers]>
  (<["speed" := speed_get providers]>
  (<["style" := style_get providers]>
  (<["useSpeakerBoost" := useSpeakerBoost_get providers]> ∅)))).

(** The callback of
    [watch([apiKey, baseUrl, similarityBoost, stability, speed, style,
    useSpeakerBoost], ...)]. *)
Definition watch_settings (providerMetadata : option ProviderMetadata)
    (providers : gmap string JsVal) : gmap string JsVal :=
  <[providerId :=
      JObj (<["voiceSettings" := JObj (voiceSettings_get providers)]>
           (<["baseUrl" := or (or (baseUrl_get providerMetadata providers)
                                  (default_baseUrl providerMetadata))
                              (JStr "")]>
           (<["apiKey" := apiKey_get providers]>
           (spread (record providers)))))]> providers.

(** [handleResetVoiceSettings]:
    [providers.value[providerId] = { ...(providerMetadata.value?.defaultOptions as any) }].
    The function gives the contents of the store after the assignment.
    The copy is one level deep: a nested object of the default options,
    [voiceSettings] among them, is not copied, the new record holds the
    same object.  What later writes into it do to the descriptor is in
    [Session] and [step]. *)
Definition handleResetVoiceSettings (providerMetadata : option ProviderMetadata)
    (providers : gmap string JsVal) : gmap string JsVal :=
  <[providerId :=
      JObj (match providerMetadata with
            | Some md => default ∅ (defaultOptions md)
            | None => ∅
            end)]> providers.

(** The effective configuration of the provider: what the page reads
    through its getters. *)
Record EffectiveConfig : Type := {
  eff_apiKey : JsVal;
  eff_baseUrl : JsVal;
  eff_voiceSettings : gmap string JsVal;
}.

Definition resolve (providerMetadata : option ProviderMetadata)
    (providers : gmap string JsVal) : EffectiveConfig :=
  {| eff_apiKey := apiKey_get providers;
     eff_baseUrl := baseUrl_get providerMetadata providers;
     eff_voiceSettings := voiceSettings_get providers |}.

(** The code's own defaults: the literals on the right of [??] in the
    getters (and [true] for [!== false]). *)
Definition voice_defaults : list (string * JsVal) :=
  [ ("similarityBoost", JNum 0.75);
    ("stability", JNum 0.5);
    ("speed", JNum 1.0);
    ("style", JNum 0);
    ("useSpeakerBoost", JBool true) ].

(** The four slider fields. *)
Definition numeric_fields : list string :=
  [ "similarityBoost"; "stability"; "speed"; "style" ].


(** *** The seven settings as a table *)

Inductive Setting : Type :=
  | ApiKey
  | BaseUrl
  | SimilarityBoost
  | Stability
  | Speed
  | Style
  | UseSpeakerBoost.

#[global] Instance Setting_eq_dec : EqDecision Setting.
Proof. solve_decision. Defined.

(** [x.value = value] for the computed property [x]. *)
Definition setter (s : Setting)
    : JsVal → gmap string JsVal → Outcome (gmap string JsVal) :=
  match s with
  | ApiKey => apiKey_set
  | BaseUrl => baseUrl_set
  | SimilarityBoost => similarityBoost_set
  | Stability => stability_set
  | Speed => speed_set
  | Style => style_set
  | UseSpeakerBoost => useSpeakerBoost_set
  end.

(** [x.value] for the computed property [x]. *)
Definition getter (providerMetadata : option ProviderMetadata) (s : Setting)
    : gmap string JsVal → JsVal :=
  match s with
  | ApiKey => apiKey_get
  | BaseUrl => baseUrl_get providerMetadata
  | SimilarityBoost => similarityBoost_get
  | Stability => stability_get
  | Speed => speed_get
  | Style => style_get
  | UseSpeakerBoost => useSpeakerBoost_get
  end.

Definition is_voice_setting (s : Setting) : bool :=
  match s with
  | ApiKey | BaseUrl => false
  | _ => true
  end.

(** The property the last assignment of each setter writes, as a path
    from [providers.value[providerId]]. *)
Definition written_path (s : Setting) : list string :=
  match s with
  | ApiKey => ["apiKey"]
  | BaseUrl => ["baseUrl"]
  | SimilarityBoost => ["voiceSettings"; "similarityBoost"]
  | Stability => ["voiceSettings"; "stability"]
  | Speed => ["voiceSettings"; "speed"]
  | Style => ["style"]
  | UseSpeakerBoost => ["voiceSettings"; "useSpeakerBoost"]
  end.

(** [v.k1.k2...] *)
Definition read_path (v : JsVal) (path : list string) : JsVal :=
  foldl opt v path.

(** A slot of the persisted layout is either not there (any falsy value,
    [undefined] when the key is missing) or an object. *)
Definition absent_or_object (v : JsVal) : bool :=
  negb (truthy v) || is_obj v.

(** The persisted layout of the provider's entry: the record and its
    nested [voiceSettings] are each absent or an object. *)
Definition well_shaped (providers : gmap string JsVal) : Prop :=
  absent_or_object (record providers) = true
  ∧ absent_or_object (opt (record providers) "voiceSettings") = true.

(** Clamping to the nearest bound of [[lo, hi]], following the words of
    the specification (the sources contain no such function; it is what
    the getters are compared with). *)
Definition spec_clamp (lo hi x : float) : float :=
  if PrimFloat.ltb x lo then lo
  else if PrimFloat.ltb hi x then hi
  else x.

(** ** The voice playground of the page *)

Module Playground.

(** What the page does to its collaborators, in order. *)
Inductive Effect : Type :=
  | ConsoleError (message : string)
  | RevokeObjectURL (url : string)
  | PauseAudio
  | SetTimeout (milliseconds : nat)
  | PlayAudio.

(** The refs of the component.  [testText] is held as the UTF-16 code
    units of the JavaScript string, on which [trim] works. *)
Record Page : Type := {
  providers : gmap string JsVal;
  testText : list N;
  isGenerating : bool;
  audioUrl : string;
  errorMessage : string;
  selectedVoice : string;
  (** whether [audioPlayer.value] holds the audio element *)
  audioPlayer : bool;
  effects : list Effect;
}.

Definition emit (e : Effect) (p : Page) : Page :=
  {| providers := providers p; testText := testText p;
     isGenerating := isGenerating p; audioUrl := audioUrl p;
     errorMessage := errorMessage p; selectedVoice := selectedVoice p;
     audioPlayer := audioPlayer p; effects := effects p ++ [e] |}.

Definition set_providers (store : gmap string JsVal) (p : Page) : Page :=
  {| providers := store; testText := testText p;
     isGenerating := isGenerating p; audioUrl := audioUrl p;
     errorMessage := errorMessage p; selectedVoice := selectedVoice p;
     audioPlayer := audioPlayer p; effects := effects p |}.

Definition set_isGenerating (b : bool) (p : Page) : Page :=
  {| providers := providers p; testText := testText p;
     isGenerating := b; audioUrl := audioUrl p;
     errorMessage := errorMessage p; selectedVoice := selectedVoice p;
     audioPlayer := audioPlayer p; effects := effects p |}.

Definition set_audioUrl (u : string) (p : Page) : Page :=
  {| providers := providers p; testText := testText p;
     isGenerating := isGenerating p; audioUrl := u;
     errorMessage := errorMessage p; selectedVoice := selectedVoice p;
     audioPlayer := audioPlayer p; effects := effects p |}.

Definition set_errorMessage (m : string) (p : Page) : Page :=
  {| providers := providers p; testText := testText p;
     isGenerating := isGenerating p; audioUrl := audioUrl p;
     errorMessage := m; selectedVoice := selectedVoice p;
     audioPlayer := audioPlayer p; effects := effects p |}.

Definition set_audioPlayer (b : bool) (p : Page) : Page :=
  {| providers := providers p; testText := testText p;
     isGenerating := isGenerating p; audioUrl := audioUrl p;
     errorMessage := errorMessage p; selectedVoice := selectedVoice p;
     audioPlayer := b; effects := effects p |}.

(** The code units of a text written with one-byte characters. *)
Definition code_units (s : string) : list N :=
  Ascii.N_of_ascii <$> String.list_ascii_of_string s.

(** The code units [String.prototype.trim] removes: the white space of
    ECMAScript (TAB, VT, FF, U+FEFF and the space separators U+0020,
    U+00A0, U+1680, U+2000 to U+200A, U+202F, U+205F, U+3000) and its line
    terminators (LF, CR, U+2028, U+2029). *)
Definition is_white_space (u : N) : bool :=
  match u with
  | 9%N | 10%N | 11%N | 12%N | 13%N | 32%N | 160%N | 5760%N
  | 8232%N | 8233%N | 8239%N | 8287%N | 12288%N | 65279%N => true
  | _ => N.leb 8192 u && N.leb u 8202
  end.

(** [!s.trim()]: nothing is left once the white space at both ends is
    removed. *)
Definition blank (s : list N) : bool := forallb is_white_space s.

(** The template holds [<audio v-if="audioUrl" ref="audioPlayer">]: once
    it is rendered, [audioPlayer.value] is the element when [audioUrl] is
    not empty and [null] otherwise. *)
Definition render (p : Page) : Page :=
  set_audioPlayer (negb (String.eqb (audioUrl p) "")) p.

(** The callback handed to [setTimeout]:
    [if (audioPlayer.value) audioPlayer.value.play()]. *)
Definition playTestAudio (p : Page) : Page :=
  if audioPlayer p then emit PlayAudio p else p.

(** [error instanceof Error ? error.message : 'An unknown error occurred'];
    the text of an engine-raised [TypeError] is left to the engine. *)
Definition message_of (engine_message : string) (e : JsError) : string :=
  match e with
  | TypeError => engine_message
  | Error m => m
  | NonError _ => "An unknown error occurred"
  end.

(** [stopTestAudio] *)
Definition stopTestAudio (p : Page) : Page :=
  let p := if audioPlayer p then emit PauseAudio p else p in
  if negb (String.eqb (audioUrl p) "")
  then set_audioUrl "" (emit (RevokeObjectURL (audioUrl p)) p)
  else p.

Section WithCollaborators.

(** A provider instance, as [providersStore.getProviderInstance] hands
    it out, and the bytes [generateSpeech] answers with. *)
Context {Instance Response : Type}.

(** [providersStore.getProviderInstance(providerId)]: an instance,
    [undefined], or an exception.  It is a method of the store that holds
    [providers], so it is given the store it leaves as well. *)
Variable getProviderInstance :
  gmap string JsVal → gmap string JsVal * Outcome (option Instance).

(** [generateSpeech({ ...provider.speech('eleven_multilingual_v2',
    { voiceSettings }), input, voice })]. *)
Variable generateSpeech :
  Instance → gmap string JsVal → list N → JsVal → Outcome Response.

(** [voiceMap[selectedVoice.value as Voice]] *)
Variable voiceMap : string → JsVal.

(** [URL.createObjectURL(new Blob([response]))] *)
Variable createObjectURL : Response → string.

Variable engine_message : string.

(** [generateTestSpeech]: how the call completed once [generateSpeech]
    has settled, and the page then, after the template has been rendered
    for the [audioUrl] the call leaves.  The timer it sets runs
    [playTestAudio] later. *)
Definition generateTestSpeech (p : Page) : Page * Outcome unit :=
  if blank (testText p) then (p, Returned ())
  else
    let (providers', provider) := getProviderInstance (providers p) in
    let p := set_providers providers' p in
    match provider with
    | Thrown e => (p, Thrown e)
    | Returned None =>
        (emit (ConsoleError "Failed to initialize speech provider") p,
         Returned ())
    | Returned (Some provider) =>
        let p := set_errorMessage "" (set_isGenerating true p) in
        (* try *)
        let p := if negb (String.eqb (audioUrl p) "") then stopTestAudio p else p in
        let p :=
          match generateSpeech provider (voiceSettings_get (providers p))
                  (testText p) (voiceMap (selectedVoice p)) with
          | Returned response =>
              emit (SetTimeout 100) (set_audioUrl (createObjectURL response) p)
          | Thrown error =>
              (* catch *)
              set_errorMessage (message_of engine_message error)
                (emit (ConsoleError "Error generating speech:") p)
          end in
        (* finally *)
        (render (set_isGenerating false p), Returned ())
    end.

End WithCollaborators.

End Playground.

(** ** The LLM store: [src/stores/llm.ts] *)

Module LLM.

(** An object built by the SDK: its identity (the order of allocation)
    and the options it was built from. *)
Record Handle : Type := {
  address : nat;
  settings : gmap string JsVal;
}.

(** The refs of the store, and the number of objects allocated so far. *)
Record Store : Type := {
  openAI : option Handle;
  openAIProvider : option Handle;
  allocated : nat;
}.

Definition initial : Store :=
  {| openAI := None; openAIProvider := None; allocated := 0 |}.

Section WithSDK.

Context {Stream Models : Type}.

(** [new OpenAI(options)] and [createOpenAI(options)]: the exception
    the constructor throws on these options, if any. *)
Variable new_OpenAI : gmap string JsVal → option JsError.
Variable createOpenAI : gmap string JsVal → option JsError.

(** [streamText({ model: provider(model), messages: [{ role: 'user',
    content }] })] and [client.models.list()]. *)
Variable streamText : Handle → string → string → Outcome Stream.
Variable models_list : Handle → Outcome Models.

(** [setupOpenAI(options)] *)
Definition setupOpenAI (options : gmap string JsVal) (s : Store)
    : Store * Outcome unit :=
  let client_options := <["dangerouslyAllowBrowser" := JBool true]> options in
  match new_OpenAI client_options with
  | Some e => (s, Thrown e)
  | None =>
      let s :=
        {| openAI := Some {| address := allocated s; settings := client_options |};
           openAIProvider := openAIProvider s;
           allocated := S (allocated s) |} in
      match createOpenAI options with
      | Some e => (s, Thrown e)
      | None =>
          ({| openAI := openAI s;
              openAIProvider := Some {| address := allocated s; settings := options |};
              allocated := S (allocated s) |},
           Returned ())
      end
  end.

(** [stream(model, content)] *)
Definition stream (model content : string) (s : Store) : Outcome Stream :=
  match openAIProvider s with
  | None => Thrown (Error "OpenAI not initialized")
  | Some provider => streamText provider model content
  end.

(** [models()] *)
Definition models (s : Store) : Outcome Models :=
  match openAI s with
  | None => Thrown (Error "OpenAI not initialized")
  | Some client => models_list client
  end.

End WithSDK.

End LLM.

(** ** The instance cache of the specification

    The page obtains its client from [providersStore.getProviderInstance],
    whose code is not among the sources; the definitions of this module
    follow sections 3, 4.2 and 4.4 of the specification instead. *)

Module InstanceCache.

(** Modelled from the spec: the defaults of a [ProviderDescriptor] (§3);
    the descriptor catalog itself is not among the sources. *)
Record Descriptor : Type := {
  default_apiKey : option string;
  default_baseUrl : option string;
  default_settings : gmap string (gmap string JsVal);
}.

(** Modelled from the spec: [PersistedProviderConfig] (§3), the record the
    Configuration Store keeps per provider id; the store is not among the
    sources. *)
Record Persisted : Type := {
  apiKey : option string;
  baseUrl : option string;
  capabilitySettings : gmap string (gmap string JsVal);
}.

(** Modelled from the spec: the [partial] argument of [update] (§4.2),
    whose unspecified fields are absent; the store is not among the
    sources. *)
Record Partial : Type := {
  new_apiKey : option string;
  new_baseUrl : option string;
  new_capabilitySettings : option (gmap string (gmap string JsVal));
}.

(** Modelled from the spec: [EffectiveConfig] (§3), with [None] as the
    unset sentinel of the credential; the resolver is not among the
    sources. *)
Record Effective : Type := {
  eff_apiKey : option string;
  eff_baseUrl : string;
  eff_settings : gmap string (gmap string JsVal);
}.

(** Modelled from the spec: a [ProviderInstance] (§3); its identity is
    the serial number of its construction.  The instance cache is not
    among the sources. *)
Record Instance : Type := {
  serial : nat;
  config : Effective;
}.

(** Modelled from the spec: the failures of [getInstance] (§4.4, §7); the
    instance cache is not among the sources. *)
Inductive Failure : Type :=
  | NotFound
  | NotConfigured.

(** Modelled from the spec: the merge of the Resolver (§4.3), in priority
    order per field: the persisted value, then the descriptor default,
    then unset (empty for [baseUrl]); capability settings merge per field.
    The constraint checks of numeric fields play no part in the instance
    cache and are left out.  The resolver is not among the sources. *)
Definition resolve (d : Descriptor) (p : option Persisted) : Effective :=
  match p with
  | Some p =>
      {| eff_apiKey := from_option Some (default_apiKey d) (apiKey p);
         eff_baseUrl :=
           default "" (from_option Some (default_baseUrl d) (baseUrl p));
         eff_settings :=
           union_with (λ mine theirs, Some (mine ∪ theirs))
                      (capabilitySettings p) (default_settings d) |}
  | None =>
      {| eff_apiKey := default_apiKey d;
         eff_baseUrl := default "" (default_baseUrl d);
         eff_settings := default_settings d |}
  end.

(** Modelled from the spec: the shallow merge of [update] (§4.2): a field
    of [partial] replaces the stored one, an unspecified field is
    preserved, a record is created when absent.  The store is not among
    the sources. *)
Definition merge (partial : Partial) (old : option Persisted) : Persisted :=
  match old with
  | Some p =>
      {| apiKey := from_option Some (apiKey p) (new_apiKey partial);
         baseUrl := from_option Some (baseUrl p) (new_baseUrl partial);
         capabilitySettings :=
           default (capabilitySettings p) (new_capabilitySettings partial) |}
  | None =>
      {| apiKey := new_apiKey partial;
         baseUrl := new_baseUrl partial;
         capabilitySettings := default ∅ (new_capabilitySettings partial) |}
  end.

Section WithFingerprint.

(** The digest of an effective configuration (§3, glossary). *)
Context {Fingerprint : Type} `{EqDecision Fingerprint}.
Variable fingerprint : Effective → Fingerprint.

(** Modelled from the spec: the state of the registry: catalog (§4.1),
    Configuration Store (§4.2), Instance Cache (§4.4) and the number of
    instances constructed so far.  None of them is among the sources. *)
Record Registry : Type := {
  catalog : gmap string Descriptor;
  store : gmap string Persisted;
  cache : gmap string (Fingerprint * Instance);
  constructed : nat;
}.

(** Modelled from the spec: [invalidate(providerId)] (§4.4); the
    instance cache is not among the sources. *)
Definition invalidate (id : string) (r : Registry) : Registry :=
  {| catalog := catalog r; store := store r;
     cache := delete id (cache r); constructed := constructed r |}.

(** Modelled from the spec: [update(providerId, partial)] (§4.2): the
    shallow merge, then the invalidation signal for that provider id.
    The store is not among the sources. *)
Definition update (id : string) (partial : Partial) (r : Registry) : Registry :=
  invalidate id
    {| catalog := catalog r;
       store := <[id := merge partial (store r !! id)]> (store r);
       cache := cache r; constructed := constructed r |}.

(** Modelled from the spec: [getInstance(providerId)], steps 1 to 5 of
    §4.4; [providersStore.getProviderInstance] is not among the
    sources. *)
Definition getInstance (id : string) (r : Registry)
    : (Failure + Instance) * Registry :=
  match catalog r !! id with
  | None => (inl NotFound, r)
  | Some d =>
      let effective := resolve d (store r !! id) in
      match eff_apiKey effective with
      | None => (inl NotConfigured, r)
      | Some _ =>
          let fresh :=
            {| serial := constructed r; config := effective |} in
          let rebuilt :=
            {| catalog := catalog r; store := store r;
               cache := <[id := (fingerprint effective, fresh)]> (cache r);
               constructed := S (constructed r) |} in
          match cache r !! id with
          | Some (fp, instance) =>
              if decide (fp = fingerprint effective)
              then (inr instance, r)
              else (inr fresh, rebuilt)
          | None => (inr fresh, rebuilt)
          end
      end
  end.

(** Modelled from the spec: the cache owns every live instance (§3), so
    each cached instance was constructed earlier.  The instance cache is
    not among the sources. *)
Definition cache_ok (r : Registry) : Prop :=
  ∀ id fp i, cache r !! id = Some (fp, i) → serial i < constructed r.

End WithFingerprint.

End InstanceCache.

(** ** Auxiliary definitions *)

(** The properties of the provider's record and of its voice settings,
    none when the slot holds no object. *)
Definition record_fields (providers : gmap string JsVal) : gmap string JsVal :=
  match record providers with
  | JObj r => r
  | _ => ∅
  end.

Definition voice_fields (providers : gmap string JsVal) : gmap string JsVal :=
  match opt (record providers) "voiceSettings" with
  | JObj vs => vs
  | _ => ∅
  end.

(** [defaultOptions.apiKey || ''], what the credential resolves to once
    the record is a copy of the default options. *)
Definition default_apiKey (providerMetadata : option ProviderMetadata) : JsVal :=
  or (match providerMetadata with
      | Some md => prop (default ∅ (defaultOptions md)) "apiKey"
      | None => JUndefined
      end) (JStr "").

(** Every object a ref of the LLM store holds was allocated earlier. *)
Definition handles_ok (s : LLM.Store) : Prop :=
  ∀ h, LLM.openAI s = Some h ∨ LLM.openAIProvider s = Some h →
       LLM.address h < LLM.allocated s.

(** ** Sample stores, descriptors and pages *)

Definition persisted_stability_only : gmap string JsVal :=
  {[ providerId :=
       JObj {[ "voiceSettings" := JObj {[ "stability" := JNum 0.8 ]} ]} ]}.

Definition persisted_speed_5 : gmap string JsVal :=
  {[ providerId :=
       JObj {[ "voiceSettings" := JObj {[ "speed" := JNum 5.0 ]} ]} ]}.

Definition sample_metadata : ProviderMetadata :=
  {| localizedName := "ElevenLabs"; icon := "i-simple-icons:elevenlabs";
     defaultOptions := Some {[ "baseUrl" := JStr "https://unspeech.hyp3r.link/v1/" ]} |}.

Definition without_defaults : ProviderMetadata :=
  {| localizedName := "ElevenLabs"; icon := "i-simple-icons:elevenlabs";
     defaultOptions := None |}.

Definition persisted_baseUrl : gmap string JsVal :=
  {[ providerId := JObj {[ "baseUrl" := JStr "https://example.org/v1/" ]} ]}.

Definition persisted_key_and_stability : gmap string JsVal :=
  {[ providerId :=
       JObj {[ "apiKey" := JStr "k";
               "voiceSettings" := JObj {[ "stability" := JNum 0.9 ]} ]} ]}.

Definition persisted_without_voiceSettings : gmap string JsVal :=
  {[ providerId := JObj {[ "apiKey" := JStr "k" ]} ]}.

(** A registry of the specification's instance cache with one provider,
    a persisted credential and a cold cache; the fingerprint is the pair
    of the credential and the endpoint. *)
Definition sample_fingerprint (e : InstanceCache.Effective) : option string * string :=
  (InstanceCache.eff_apiKey e, InstanceCache.eff_baseUrl e).

Definition sample_registry : @InstanceCache.Registry (option string * string) :=
  {| InstanceCache.catalog :=
       {[ providerId :=
            {| InstanceCache.default_apiKey := None;
               InstanceCache.default_baseUrl := Some "https://unspeech.hyp3r.link/v1/";
               InstanceCache.default_settings := ∅ |} ]};
     InstanceCache.store :=
       {[ providerId :=
            {| InstanceCache.apiKey := Some "k";
               InstanceCache.baseUrl := None;
               InstanceCache.capabilitySettings := ∅ |} ]};
     InstanceCache.cache := ∅;
     InstanceCache.constructed := 0 |}.

Definition sample_instance : InstanceCache.Instance :=
  {| InstanceCache.serial := 0;
     InstanceCache.config :=
       {| InstanceCache.eff_apiKey := Some "k";
          InstanceCache.eff_baseUrl := "https://unspeech.hyp3r.link/v1/";
          InstanceCache.eff_settings := ∅ |} |}.

Definition sample_registry_warm : @InstanceCache.Registry (option string * string) :=
  (InstanceCache.getInstance sample_fingerprint providerId sample_registry).2.

Definition sample_page : Playground.Page :=
  {| Playground.providers := persisted_key_and_stability;
     Playground.testText :=
       Playground.code_units "Hello! This is a test of the ElevenLabs voice synthesis.";
     Playground.isGenerating := false;
     Playground.audioUrl := "";
     Playground.errorMessage := "";
     Playground.selectedVoice := "";
     Playground.audioPlayer := false;
     Playground.effects := [] |}.

Definition sample_page_busy : Playground.Page :=
  {| Playground.providers :=
       <["openai" := JObj {[ "apiKey" := JStr "sk-" ]}]> persisted_key_and_stability;
     Playground.testText := [];
     Playground.isGenerating := true;
     Playground.audioUrl := "blob:1";
     Playground.errorMessage := "An unknown error occurred";
     Playground.selectedVoice := "Myriam";
     Playground.audioPlayer := true;
     Playground.effects := [Playground.ConsoleError "Error generating speech:"] |}.

(** ** The lifecycle hooks of the page *)

(** [onUnmounted]: [if (audioUrl.value) URL.revokeObjectURL(audioUrl.value)] *)
Definition onUnmounted (p : Playground.Page) : Playground.Page :=
  if negb (String.eqb (Playground.audioUrl p) "")
  then Playground.emit (Playground.RevokeObjectURL (Playground.audioUrl p)) p
  else p.

(** The object URLs released so far, in order. *)
Fixpoint revoked (effects : list Playground.Effect) : list string :=
  match effects with
  | [] => []
  | Playground.RevokeObjectURL url :: rest => url :: revoked rest
  | _ :: rest => revoked rest
  end.

Section Mounting.

(** [providersStore.initializeProvider(providerId)], from the providers
    store: what it leaves in [providers]. *)
Variable initializeProvider : gmap string JsVal → gmap string JsVal.

(** Whether [providersStore.configuredProviders[providerId]] is truthy. *)
Variable configured : gmap string JsVal → bool.

(** [onMounted]: the store after the hook, and whether it called
    [speechStore.loadVoicesForProvider(providerId)]. *)
Definition onMounted (providerMetadata : option ProviderMetadata)
    (providers : gmap string JsVal) : Outcome (gmap string JsVal * bool) :=
  let providers := initializeProvider providers in
  providers ← apiKey_set (or (opt (record providers) "apiKey") (JStr "")) providers;
  providers ←
    baseUrl_set
      (or (or (opt (record providers) "baseUrl") (default_baseUrl providerMetadata))
          (JStr "")) providers;
  providers ←
    (if truthy (opt (record providers) "voiceSettings") then
       providers ←
         similarityBoost_set
           (coalesce (opt (opt (record providers) "voiceSettings") "similarityBoost")
                     (JNum 0.75)) providers;
       providers ←
         stability_set
           (coalesce (opt (opt (record providers) "voiceSettings") "stability")
                     (JNum 0.5)) providers;
       providers ←
         speed_set
           (coalesce (opt (opt (record providers) "voiceSettings") "speed")
                     (JNum 1.0)) providers;
       providers ←
         style_set
           (coalesce (opt (opt (record providers) "voiceSettings") "style")
                     (JNum 0)) providers;
       useSpeakerBoost_set
         (JBool (not_false
                   (opt (opt (record providers) "voiceSettings") "useSpeakerBoost")))
         providers
     else Returned providers);
  Returned (providers, configured providers).

End Mounting.

(** ** Successive calls of [setupOpenAI] *)

(** The store after calling [setupOpenAI] with each of the options in
    turn, whether or not a call throws. *)
Definition setups (new_OpenAI createOpenAI : gmap string JsVal → option JsError)
    (calls : list (gmap string JsVal)) (s : LLM.Store) : LLM.Store :=
  foldl (λ s options, (LLM.setupOpenAI new_OpenAI createOpenAI options s).1) s calls.

(** ** Sequences of operations on the store *)

(** What can happen to the store while the page is open: a control writes
    a setting, the settings watcher runs, the reset button is pressed. *)
Inductive Action : Type :=
  | Edit (s : Setting) (value : JsVal)
  | Flush
  | Reset.

(** Whether the last assignment of the setter writes into
    [voiceSettings]. *)
Definition assigns_into_voiceSettings (s : Setting) : bool :=
  match written_path s with
  | "voiceSettings" :: _ => true
  | _ => false
  end.

(** The [voiceSettings] entry of the descriptor's default options, if
    there is one. *)
Definition default_voiceSettings (providerMetadata : option ProviderMetadata) : JsVal :=
  match providerMetadata with
  | Some md => prop (default ∅ (defaultOptions md)) "voiceSettings"
  | None => JUndefined
  end.

(** The descriptor after a write into the [voiceSettings] object of its
    default options. *)
Definition with_default_voiceSettings (providerMetadata : option ProviderMetadata)
    (voiceSettings : JsVal) : option ProviderMetadata :=
  match providerMetadata with
  | Some md =>
      Some {| localizedName := localizedName md; icon := icon md;
              defaultOptions :=
                Some (<["voiceSettings" := voiceSettings]>
                        (default ∅ (defaultOptions md))) |}
  | None => None
  end.

(** The descriptor and the store while the page is open.  The spread in
    [handleResetVoiceSettings] copies the default options one level deep,
    so after a reset the [voiceSettings] of the record is the very object
    of the default options.  [shared] holds while that is so: a setter
    that assigns into [voiceSettings] then writes the descriptor too. *)
Record Session : Type := {
  descriptor : option ProviderMetadata;
  store : gmap string JsVal;
  shared : bool;
}.

(** One action on the page.  A setter that assigns into a shared
    [voiceSettings] changes that object for the descriptor as well; the
    watcher replaces the record's [voiceSettings] by an object of its own;
    the reset makes the record share the descriptor's again. *)
Definition step (a : Action) (σ : Session) : Outcome Session :=
  match a with
  | Edit s value =>
      p ← setter s value (store σ);
      Returned
        (if shared σ && assigns_into_voiceSettings s
         then {| descriptor :=
                   with_default_voiceSettings (descriptor σ)
                     (opt (record p) "voiceSettings");
                 store := p; shared := true |}
         else {| descriptor := descriptor σ; store := p; shared := shared σ |})
  | Flush =>
      Returned {| descriptor := descriptor σ;
                  store := watch_settings (descriptor σ) (store σ);
                  shared := false |}
  | Reset =>
      Returned {| descriptor := descriptor σ;
                  store := handleResetVoiceSettings (descriptor σ) (store σ);
                  shared := is_obj (default_voiceSettings (descriptor σ)) |}
  end.

(** The actions in order; an exception ends the sequence. *)
Fixpoint run_session (actions : list Action) (σ : Session) : Outcome Session :=
  match actions with
  | [] => Returned σ
  | a :: rest => σ' ← step a σ; run_session rest σ'
  end.

(** A session on a store that shares no object with the descriptor, as
    when the store has just been read from storage. *)
Definition opened (providerMetadata : option ProviderMetadata)
    (providers : gmap string JsVal) : Session :=
  {| descriptor := providerMetadata; store := providers; shared := false |}.

(** The store after the actions of a session opened on [providers]. *)
Definition run (providerMetadata : option ProviderMetadata) (actions : list Action)
    (providers : gmap string JsVal) : Outcome (gmap string JsVal) :=
  σ ← run_session actions (opened providerMetadata providers);
  Returned (store σ).

(** A page that still holds the audio of an earlier test. *)
Definition sample_page_with_audio : Playground.Page :=
  {| Playground.providers := persisted_key_and_stability;
     Playground.testText := Playground.code_units "Hello!";
     Playground.isGenerating := false;
     Playground.audioUrl := "blob:old";
     Playground.errorMessage := "An unknown error occurred";
     Playground.selectedVoice := "Myriam";
     Playground.audioPlayer := true;
     Playground.effects := [] |}.

(** ** When a setter can complete *)

(** The slots the setter assigns into are each absent or an object. *)
Definition can_assign (s : Setting) (providers : gmap string JsVal) : bool :=
  absent_or_object (record providers)
  && (if assigns_into_voiceSettings s
      then absent_or_object (opt (record providers) "voiceSettings")
      else true).


(** A descriptor whose default options hold an object for
    [voiceSettings]. *)
Definition sample_metadata_with_voiceSettings : ProviderMetadata :=
  {| localizedName := "ElevenLabs"; icon := "i-simple-icons:elevenlabs";
     defaultOptions :=
       Some {[ "baseUrl" := JStr "https://unspeech.hyp3r.link/v1/";
               "voiceSettings" := JObj {[ "stability" := JNum 0.5 ]} ]} |}.
(** ** Properties of the settings page *)

(** *** Reading the store *)

Lemma record_lookup (providers : gmap string JsVal) (v : JsVal) :
  providers !! providerId = Some v → record providers = v.
Proof. unfold record, prop. by intros ->. Qed.

Lemma record_insert (providers : gmap string JsVal) (v : JsVal) :
  record (<[providerId := v]> providers) = v.
Proof. apply record_lookup, lookup_insert_eq. Qed.

Lemma prop_insert (o : gmap string JsVal) (k : string) (v : JsVal) :
  prop (<[k := v]> o) k = v.
Proof. unfold prop. by rewrite lookup_insert_eq. Qed.

Lemma prop_insert_ne (o : gmap string JsVal) (k k' : string) (v : JsVal) :
  k ≠ k' → prop (<[k := v]> o) k' = prop o k'.
Proof. intros Hne. unfold prop. by rewrite lookup_insert_ne. Qed.

Lemma record_ext (providers providers' : gmap string JsVal) :
  providers !! providerId = providers' !! providerId →
  record providers = record providers'.
Proof. unfold record, prop. by intros ->. Qed.

Lemma voice_field_lookup (providers r vs : gmap string JsVal) (k : string) :
  providers !! providerId = Some (JObj r) →
  r !! "voiceSettings" = Some (JObj vs) →
  voice_field providers k = prop vs k.
Proof.
  intros Hr Hvs. unfold voice_field.
  rewrite (record_lookup _ _ Hr). cbn [opt].
  replace (prop r "voiceSettings") with (JObj vs); [done |].
  unfold prop. by rewrite Hvs.
Qed.

Lemma falsy_not_obj (v : JsVal) (k : string) :
  truthy v = false → opt v k = JUndefined.
Proof. by destruct v. Qed.

Lemma voiceSettings_get_lookup (providers : gmap string JsVal) :
  voiceSettings_get providers !! "similarityBoost" = Some (similarityBoost_get providers)
  ∧ voiceSettings_get providers !! "stability" = Some (stability_get providers)
  ∧ voiceSettings_get providers !! "speed" = Some (speed_get providers)
  ∧ voiceSettings_get providers !! "style" = Some (style_get providers)
  ∧ voiceSettings_get providers !! "useSpeakerBoost" = Some (useSpeakerBoost_get providers).
Proof.
  unfold voiceSettings_get.
  repeat split; by rewrite ?lookup_insert_eq, ?lookup_insert_ne by done.
Qed.

(** A field the persisted voice settings do not supply resolves to the
    default, whatever the sibling fields hold. *)
Lemma voice_default_when_missing (providers r vs : gmap string JsVal) (k : string) (d : JsVal) :
  providers !! providerId = Some (JObj r) →
  r !! "voiceSettings" = Some (JObj vs) →
  (k, d) ∈ voice_defaults →
  vs !! k = None →
  voiceSettings_get providers !! k = Some d.
Proof.
  intros Hr Hvs Hk Hnone.
  destruct (voiceSettings_get_lookup providers) as (H1 & H2 & H3 & H4 & H5).
  unfold voice_defaults in Hk.
  repeat (apply elem_of_cons in Hk as [Hk | Hk]);
    [inversion Hk; subst k d; clear Hk .. | by apply elem_of_nil in Hk].
  - rewrite H1. unfold similarityBoost_get.
    by rewrite (voice_field_lookup _ _ _ _ Hr Hvs); unfold prop; rewrite Hnone.
  - rewrite H2. unfold stability_get.
    by rewrite (voice_field_lookup _ _ _ _ Hr Hvs); unfold prop; rewrite Hnone.
  - rewrite H3. unfold speed_get.
    by rewrite (voice_field_lookup _ _ _ _ Hr Hvs); unfold prop; rewrite Hnone.
  - rewrite H4. unfold style_get.
    by rewrite (voice_field_lookup _ _ _ _ Hr Hvs); unfold prop; rewrite Hnone.
  - rewrite H5. unfold useSpeakerBoost_get.
    by rewrite (voice_field_lookup _ _ _ _ Hr Hvs); unfold prop; rewrite Hnone.
Qed.

(** A persisted number is read back as it is by each slider getter. *)
Lemma voice_number_when_supplied (providers r vs : gmap string JsVal) (k : string) (x : float) :
  providers !! providerId = Some (JObj r) →
  r !! "voiceSettings" = Some (JObj vs) →
  k ∈ numeric_fields →
  vs !! k = Some (JNum x) →
  voiceSettings_get providers !! k = Some (JNum x).
Proof.
  intros Hr Hvs Hk Hx.
  destruct (voiceSettings_get_lookup providers) as (H1 & H2 & H3 & H4 & _).
  unfold numeric_fields in Hk.
  repeat (apply elem_of_cons in Hk as [-> | Hk]); [ .. | by apply elem_of_nil in Hk].
  - rewrite H1. unfold similarityBoost_get.
    by rewrite (voice_field_lookup _ _ _ _ Hr Hvs); unfold prop; rewrite Hx.
  - rewrite H2. unfold stability_get.
    by rewrite (voice_field_lookup _ _ _ _ Hr Hvs); unfold prop; rewrite Hx.
  - rewrite H3. unfold speed_get.
    by rewrite (voice_field_lookup _ _ _ _ Hr Hvs); unfold prop; rewrite Hx.
  - rewrite H4. unfold style_get.
    by rewrite (voice_field_lookup _ _ _ _ Hr Hvs); unfold prop; rewrite Hx.
Qed.

Lemma speakerBoost_when_supplied (providers r vs : gmap string JsVal) (b : bool) :
  providers !! providerId = Some (JObj r) →
  r !! "voiceSettings" = Some (JObj vs) →
  vs !! "useSpeakerBoost" = Some (JBool b) →
  voiceSettings_get providers !! "useSpeakerBoost" = Some (JBool b).
Proof.
  intros Hr Hvs Hb.
  destruct (voiceSettings_get_lookup providers) as (_ & _ & _ & _ & H5).
  rewrite H5. unfold useSpeakerBoost_get.
  rewrite (voice_field_lookup _ _ _ _ Hr Hvs). unfold prop. rewrite Hb.
  by destruct b.
Qed.

(** *** Resolution of the voice settings *)

(** C1: when the persisted record's nested voice settings supply only some
    fields, resolution merges field by field: every field the record does
    not supply resolves to its default, and every supplied slider number
    or speaker-boost flag is kept. *)
Theorem partial_voiceSettings_merge_per_field
    (providerMetadata : option ProviderMetadata)
    (providers r vs : gmap string JsVal) :
  providers !! providerId = Some (JObj r) →
  r !! "voiceSettings" = Some (JObj vs) →
  let effective := eff_voiceSettings (resolve providerMetadata providers) in
  (∀ k d, (k, d) ∈ voice_defaults → vs !! k = None → effective !! k = Some d)
  ∧ (∀ k x, k ∈ numeric_fields → vs !! k = Some (JNum x) →
            effective !! k = Some (JNum x))
  ∧ (∀ b, vs !! "useSpeakerBoost" = Some (JBool b) →
          effective !! "useSpeakerBoost" = Some (JBool b)).
Proof.
  intros Hr Hvs effective. subst effective. cbn [resolve eff_voiceSettings].
  split; [| split].
  - intros k d Hk Hnone. by eapply voice_default_when_missing.
  - intros k x Hk Hx. by eapply voice_number_when_supplied.
  - intros b Hb. by eapply speakerBoost_when_supplied.
Qed.

(** With the defaults [{stability: 0.5, speed: 1.0}], the persisted
    [{stability: 0.8}] resolves to [{stability: 0.8, speed: 1.0}]. *)
Lemma partial_voiceSettings_example :
  let effective := eff_voiceSettings (resolve None persisted_stability_only) in
  effective !! "stability" = Some (JNum 0.8)
  ∧ effective !! "speed" = Some (JNum 1.0).
Proof.
  destruct (partial_voiceSettings_merge_per_field None
              persisted_stability_only
              {[ "voiceSettings" := JObj {[ "stability" := JNum 0.8 ]} ]}
              {[ "stability" := JNum 0.8 ]} eq_refl eq_refl)
    as (Hmissing & Hnumber & _).
  split.
  - apply Hnumber; [| reflexivity].
    unfold numeric_fields. apply elem_of_cons. right. apply elem_of_cons. by left.
  - apply Hmissing; [| reflexivity].
    unfold voice_defaults. do 2 (apply elem_of_cons; right).
    apply elem_of_cons. by left.
Defined.

(** *** Numbers outside the range of their slider *)

Lemma JNum_neq (x y : float) : PrimFloat.eqb x y = false → PrimFloat.eqb x x = true → JNum x ≠ JNum y.
Proof.
  intros Hxy Hxx Heq.
  apply (f_equal (λ v, match v with JNum z => PrimFloat.eqb x z | _ => false end)) in Heq.
  cbn beta iota in Heq. congruence.
Qed.

(** C2, as stated, fails: the persisted [speed = 5.0] resolves to [5.0],
    not to the upper bound [1.2] of the slider's range [[0.7, 1.2]]. *)
Lemma speed_5_is_not_clamped :
  spec_clamp 0.7 1.2 5.0 = 1.2%float
  ∧ speed_get persisted_speed_5 = JNum 5.0
  ∧ speed_get persisted_speed_5 ≠ JNum (spec_clamp 0.7 1.2 5.0).
Proof.
  split; [reflexivity |]. split; [reflexivity |].
  change (speed_get persisted_speed_5) with (JNum 5.0).
  change (spec_clamp 0.7 1.2 5.0) with 1.2%float.
  by apply JNum_neq.
Qed.

(** C2, amended: a persisted number resolves to itself, inside or outside
    the range of the field's slider; resolution neither clamps nor
    rejects it. *)
Theorem persisted_number_resolves_unchanged
    (providerMetadata : option ProviderMetadata)
    (providers r vs : gmap string JsVal) (k : string) (x : float) :
  providers !! providerId = Some (JObj r) →
  r !! "voiceSettings" = Some (JObj vs) →
  k ∈ numeric_fields →
  vs !! k = Some (JNum x) →
  eff_voiceSettings (resolve providerMetadata providers) !! k = Some (JNum x).
Proof.
  intros Hr Hvs Hk Hx. by eapply voice_number_when_supplied.
Qed.

Lemma persisted_speed_5_resolves_to_5 :
  eff_voiceSettings (resolve None persisted_speed_5) !! "speed" = Some (JNum 5.0).
Proof.
  apply (persisted_number_resolves_unchanged None persisted_speed_5
           {[ "voiceSettings" := JObj {[ "speed" := JNum 5.0 ]} ]}
           {[ "speed" := JNum 5.0 ]} "speed" 5.0 eq_refl eq_refl);
    [| reflexivity].
  unfold numeric_fields. do 2 (apply elem_of_cons; right).
  apply elem_of_cons. by left.
Defined.

(** *** The base URL *)

(** C7: the effective base URL is the persisted [baseUrl] when there is
    one (a truthy value: a non-empty string), otherwise the descriptor's
    [defaultOptions.baseUrl] when there is one, otherwise the empty
    string. *)
Theorem baseUrl_priority
    (providerMetadata : option ProviderMetadata) (providers : gmap string JsVal) :
  let persisted := opt (record providers) "baseUrl" in
  let fallback := default_baseUrl providerMetadata in
  (truthy persisted = true →
     baseUrl_get providerMetadata providers = persisted)
  ∧ (truthy persisted = false → truthy fallback = true →
     baseUrl_get providerMetadata providers = fallback)
  ∧ (truthy persisted = false → truthy fallback = false →
     baseUrl_get providerMetadata providers = JStr "").
Proof.
  intros persisted fallback. unfold baseUrl_get, or.
  fold persisted fallback.
  repeat split.
  - intros Hp. by rewrite Hp, Hp.
  - intros Hp Hf. by rewrite Hp, Hf.
  - intros Hp Hf. by rewrite Hp, Hf.
Qed.

Lemma baseUrl_priority_examples :
  baseUrl_get (Some sample_metadata) persisted_baseUrl = JStr "https://example.org/v1/"
  ∧ baseUrl_get (Some sample_metadata) ∅ = JStr "https://unspeech.hyp3r.link/v1/"
  ∧ baseUrl_get (Some without_defaults) ∅ = JStr ""
  ∧ baseUrl_get None ∅ = JStr "".
Proof.
  split; [| split; [| split]].
  - by apply (baseUrl_priority (Some sample_metadata) persisted_baseUrl).
  - by apply (baseUrl_priority (Some sample_metadata) ∅).
  - by apply (baseUrl_priority (Some without_defaults) ∅).
  - by apply (baseUrl_priority None ∅).
Defined.

(** *** Resolution reads its two inputs only *)

Lemma getters_ext (providerMetadata : option ProviderMetadata)
    (providers providers' : gmap string JsVal) :
  providers !! providerId = providers' !! providerId →
  ∀ s, getter providerMetadata s providers = getter providerMetadata s providers'.
Proof.
  intros Heq s. apply record_ext in Heq.
  destruct s; cbn [getter];
    unfold apiKey_get, baseUrl_get, similarityBoost_get, stability_get,
      speed_get, style_get, useSpeakerBoost_get, voice_field;
    by rewrite Heq.
Qed.

(** C8: resolution is a function of the descriptor and of the provider's
    persisted record alone: two pages whose stores hold the same record
    for the provider resolve to the same effective configuration under
    the same descriptor, whatever else their stores and their other refs
    hold. *)
Theorem resolve_deterministic
    (providerMetadata : option ProviderMetadata) (p p' : Playground.Page) :
  Playground.providers p !! providerId = Playground.providers p' !! providerId →
  resolve providerMetadata (Playground.providers p)
  = resolve providerMetadata (Playground.providers p').
Proof.
  intros Heq. unfold resolve, voiceSettings_get.
  pose proof (getters_ext providerMetadata _ _ Heq) as Hg.
  pose proof (Hg ApiKey) as H1. pose proof (Hg BaseUrl) as H2.
  pose proof (Hg SimilarityBoost) as H3. pose proof (Hg Stability) as H4.
  pose proof (Hg Speed) as H5. pose proof (Hg Style) as H6.
  pose proof (Hg UseSpeakerBoost) as H7. cbn [getter] in *.
  by rewrite H1, H2, H3, H4, H5, H6, H7.
Qed.

(** Two pages that differ in every ref but hold the same record for the
    provider. *)
Lemma resolve_deterministic_example :
  resolve (Some sample_metadata) (Playground.providers sample_page)
  = resolve (Some sample_metadata) (Playground.providers sample_page_busy).
Proof.
  apply (resolve_deterministic (Some sample_metadata) sample_page sample_page_busy).
  reflexivity.
Defined.

(** *** What the setters store *)

Lemma absent_or_object_cases (v : JsVal) :
  absent_or_object v = true →
  truthy v = false ∨ ∃ o, v = JObj o.
Proof.
  unfold absent_or_object. destruct (truthy v) eqn:Ht; [| by left].
  destruct v; cbn; try done. intros _. right. by eexists.
Qed.

Lemma falsy_is_not_object (v : JsVal) :
  truthy v = false → match v with JObj o => o | _ => ∅ end = (∅ : gmap string JsVal).
Proof. by destruct v. Qed.

Lemma prop_obj_lookup (o : gmap string JsVal) (k : string) (w : gmap string JsVal) :
  prop o k = JObj w → o !! k = Some (JObj w).
Proof. unfold prop. destruct (o !! k); cbn; [by intros -> | done]. Qed.

Lemma record_obj_lookup (providers r : gmap string JsVal) :
  record providers = JObj r → providers !! providerId = Some (JObj r).
Proof. apply prop_obj_lookup. Qed.

(** After the first guard the record is an object holding the fields it
    had. *)
Lemma assign_record_after_guard (k : string) (v : JsVal) (providers : gmap string JsVal) :
  absent_or_object (record providers) = true →
  assign_record k v (ensure_record providers)
  = Returned (<[providerId := JObj (<[k := v]> (record_fields providers))]> providers).
Proof.
  intros Hshape. unfold ensure_record, record_fields.
  destruct (absent_or_object_cases _ Hshape) as [Hf | [r Hr]].
  - rewrite Hf, (falsy_is_not_object _ Hf). unfold assign_record.
    rewrite record_insert. cbn. by rewrite insert_insert_eq.
  - rewrite Hr. cbn [truthy]. unfold assign_record. by rewrite Hr.
Qed.

(** After both guards the record and its voice settings are objects
    holding the fields they had. *)
Lemma voiceSettings_after_guards (providers : gmap string JsVal) :
  well_shaped providers →
  ensure_voiceSettings (ensure_record providers)
  = Returned (<[providerId :=
                  JObj (<["voiceSettings" := JObj (voice_fields providers)]>
                          (record_fields providers))]> providers).
Proof.
  intros [Hrec Hvs]. unfold ensure_voiceSettings.
  destruct (absent_or_object_cases _ Hrec) as [Hf | [r Hr]].
  - unfold ensure_record, voice_fields, record_fields.
    rewrite Hf, (falsy_is_not_object _ Hf), (falsy_not_obj _ _ Hf).
    rewrite record_insert. cbn. unfold assign_record.
    rewrite record_insert. cbn. by rewrite insert_insert_eq.
  - unfold ensure_record, voice_fields, record_fields. rewrite Hr in *.
    cbn [truthy]. rewrite Hr.
    destruct (absent_or_object_cases _ Hvs) as [Hvf | [vs Hv]].
    + rewrite Hvf, (falsy_is_not_object _ Hvf).
      unfold assign_record. by rewrite Hr.
    + rewrite Hv. cbn [truthy]. f_equal. symmetry.
      cbn [opt] in Hv. apply prop_obj_lookup in Hv.
      rewrite (insert_id r _ _ Hv).
      by apply insert_id, record_obj_lookup.
Qed.

Lemma assign_voice_after_guards (k : string) (v : JsVal)
    (providers r vs : gmap string JsVal) :
  assign_voice k v (<[providerId := JObj (<["voiceSettings" := JObj vs]> r)]> providers)
  = Returned (<[providerId := JObj (<["voiceSettings" := JObj (<[k := v]> vs)]> r)]> providers).
Proof.
  unfold assign_voice, assign_record. rewrite record_insert.
  cbn [opt]. unfold prop. rewrite lookup_insert_eq. cbn.
  by rewrite !insert_insert_eq.
Qed.

(** The store after a slider or checkbox setter other than [style]. *)
Lemma voice_setter_result (s : Setting) (k : string) (v : JsVal)
    (providers : gmap string JsVal) :
  written_path s = ["voiceSettings"; k] →
  well_shaped providers →
  setter s v providers
  = Returned (<[providerId :=
                  JObj (<["voiceSettings" := JObj (<[k := v]> (voice_fields providers))]>
                          (record_fields providers))]> providers).
Proof.
  intros Hpath Hshape.
  destruct s; cbn in Hpath; try discriminate; injection Hpath as <-;
    cbn [setter];
    unfold similarityBoost_set, stability_set, speed_set, useSpeakerBoost_set;
    rewrite (voiceSettings_after_guards _ Hshape); cbn [mbind outcome_bind];
    apply assign_voice_after_guards.
Qed.

(** The store after the [style] setter. *)
Lemma style_setter_result (v : JsVal) (providers : gmap string JsVal) :
  well_shaped providers →
  style_set v providers
  = Returned (<[providerId :=
                  JObj (<["style" := v]>
                         (<["voiceSettings" := JObj (voice_fields providers)]>
                            (record_fields providers)))]> providers).
Proof.
  intros Hshape. unfold style_set.
  rewrite (voiceSettings_after_guards _ Hshape). cbn [mbind outcome_bind].
  unfold assign_record. rewrite record_insert. cbn.
  by rewrite insert_insert_eq.
Qed.

(** C10: from every store in which the provider's record and its nested
    voice settings are each absent or an object, every setter completes
    without throwing: it creates the record (and, for a voice setting,
    the nested voice settings) when missing, stores the value at the
    property its assignment names, and leaves the other providers
    alone. *)
Theorem setters_create_missing_records
    (s : Setting) (value : JsVal) (providers : gmap string JsVal) :
  absent_or_object (record providers) = true →
  (is_voice_setting s = true →
   absent_or_object (opt (record providers) "voiceSettings") = true) →
  ∃ providers',
    setter s value providers = Returned providers'
    ∧ is_obj (record providers') = true
    ∧ (is_voice_setting s = true →
       is_obj (opt (record providers') "voiceSettings") = true)
    ∧ read_path (record providers') (written_path s) = value
    ∧ (∀ id, id ≠ providerId → providers' !! id = providers !! id).
Proof.
  intros Hrec Hvs.
  destruct (is_voice_setting s) eqn:Hvoice.
  - assert (well_shaped providers) as Hshape by (split; auto).
    destruct (decide (s = Style)) as [-> | Hns].
    + eexists. split; [by apply style_setter_result |].
      rewrite record_insert. cbn. unfold prop.
      rewrite lookup_insert_eq, lookup_insert_ne, lookup_insert_eq by done.
      repeat split; try done.
      intros id Hid. by rewrite lookup_insert_ne.
    + assert (∃ k, written_path s = ["voiceSettings"; k]) as [k Hk]
        by (destruct s; try done; by eexists).
      eexists. split; [by apply voice_setter_result |].
      rewrite record_insert, Hk. cbn. unfold prop.
      rewrite !lookup_insert_eq. cbn. unfold prop. rewrite lookup_insert_eq.
      repeat split; try done.
      intros id Hid. by rewrite lookup_insert_ne.
  - assert (∃ k, written_path s = [k]
                 ∧ setter s value providers
                   = assign_record k value (ensure_record providers))
      as (k & Hk & Hset) by (destruct s; try done; by eexists).
    eexists. rewrite Hset. split; [by apply assign_record_after_guard |].
    rewrite record_insert, Hk. cbn. unfold prop. rewrite lookup_insert_eq.
    repeat split; try done.
    intros id Hid. by rewrite lookup_insert_ne.
Qed.

(** From the empty store the [stability] setter creates the record and
    its voice settings; on a record without voice settings the
    [similarityBoost] setter creates them; the [apiKey] setter creates
    the record. *)
Lemma setters_create_missing_records_examples :
  (∃ providers',
     setter Stability (JNum 0.8) ∅ = Returned providers'
     ∧ is_obj (record providers') = true
     ∧ (true = true → is_obj (opt (record providers') "voiceSettings") = true)
     ∧ read_path (record providers') ["voiceSettings"; "stability"] = JNum 0.8
     ∧ (∀ id, id ≠ providerId → providers' !! id = (∅ : gmap string JsVal) !! id))
  ∧ (∃ providers',
     setter SimilarityBoost (JNum 0.9) persisted_without_voiceSettings
       = Returned providers'
     ∧ is_obj (record providers') = true
     ∧ (true = true → is_obj (opt (record providers') "voiceSettings") = true)
     ∧ read_path (record providers') ["voiceSettings"; "similarityBoost"] = JNum 0.9
     ∧ (∀ id, id ≠ providerId →
              providers' !! id = persisted_without_voiceSettings !! id))
  ∧ (∃ providers',
     setter ApiKey (JStr "k") ∅ = Returned providers'
     ∧ is_obj (record providers') = true
     ∧ (false = true → is_obj (opt (record providers') "voiceSettings") = true)
     ∧ read_path (record providers') ["apiKey"] = JStr "k"
     ∧ (∀ id, id ≠ providerId → providers' !! id = (∅ : gmap string JsVal) !! id)).
Proof.
  split; [| split].
  - apply (setters_create_missing_records Stability (JNum 0.8) ∅);
      [reflexivity | intros _; reflexivity].
  - apply (setters_create_missing_records SimilarityBoost (JNum 0.9)
             persisted_without_voiceSettings);
      [reflexivity | intros _; reflexivity].
  - apply (setters_create_missing_records ApiKey (JStr "k") ∅);
      [reflexivity | intros _; reflexivity].
Defined.

(** The guards test truthiness only.  A store outside the persisted
    layout, whose slot for the provider holds a non-empty string, keeps
    it, and the assignment to a property of the string throws. *)
Lemma setter_on_primitive_record_throws (s : Setting) (value : JsVal) :
  setter s value {[ providerId := JStr "x" ]} = Thrown TypeError.
Proof. by destruct s. Qed.

(** *** Writing a voice setting and reading it back *)

(** X4: each of [similarityBoost], [stability], [speed] and
    [useSpeakerBoost] reads back what its setter stored: a number for a
    slider, a boolean for the checkbox. *)
Lemma voice_set_then_get (providerMetadata : option ProviderMetadata)
    (s : Setting) (k : string) (value : JsVal) (providers : gmap string JsVal) :
  written_path s = ["voiceSettings"; k] →
  well_shaped providers →
  match s with
  | UseSpeakerBoost => ∃ b, value = JBool b
  | _ => nullish value = false
  end →
  ∃ providers',
    setter s value providers = Returned providers'
    ∧ getter providerMetadata s providers' = value.
Proof.
  intros Hpath Hshape Hvalue. eexists.
  split; [by apply voice_setter_result |].
  destruct s; cbn in Hpath; try discriminate; injection Hpath as <-;
    cbn [getter];
    unfold similarityBoost_get, stability_get, speed_get, useSpeakerBoost_get,
      voice_field;
    rewrite record_insert; cbn [opt]; rewrite prop_insert; cbn [opt];
    rewrite prop_insert.
  1-3: unfold coalesce; by rewrite Hvalue.
  destruct Hvalue as [b ->]. by destruct b.
Qed.

Lemma assign_record_inv (k : string) (v : JsVal) (providers providers' : gmap string JsVal) :
  assign_record k v providers = Returned providers' →
  ∃ r, record providers = JObj r
       ∧ providers' = <[providerId := JObj (<[k := v]> r)]> providers.
Proof.
  unfold assign_record.
  destruct (record providers) as [| | | | | r]; try done.
  cbn. intros [= <-]. by exists r.
Qed.

Lemma voice_field_ensure_record (providers : gmap string JsVal) (k : string) :
  voice_field (ensure_record providers) k = voice_field providers k.
Proof.
  unfold ensure_record.
  destruct (truthy (record providers)) eqn:Ht; [done |].
  unfold voice_field. rewrite record_insert.
  by rewrite (falsy_not_obj _ _ Ht).
Qed.

Lemma voice_field_ensure_voiceSettings (providers providers' : gmap string JsVal) (k : string) :
  ensure_voiceSettings providers = Returned providers' →
  voice_field providers' k = voice_field providers k.
Proof.
  unfold ensure_voiceSettings.
  destruct (truthy (opt (record providers) "voiceSettings")) eqn:Ht.
  - by intros [= <-].
  - intros (r & Hr & ->)%assign_record_inv.
    unfold voice_field. rewrite record_insert. cbn [opt].
    rewrite prop_insert. by rewrite (falsy_not_obj _ _ Ht).
Qed.

Lemma voice_field_assign_record (k' : string) (v : JsVal)
    (providers providers' : gmap string JsVal) (k : string) :
  k' ≠ "voiceSettings" →
  assign_record k' v providers = Returned providers' →
  voice_field providers' k = voice_field providers k.
Proof.
  intros Hne (r & Hr & ->)%assign_record_inv.
  unfold voice_field. rewrite record_insert, Hr. cbn [opt].
  by rewrite prop_insert_ne.
Qed.

(** The [style] setter never reaches what the [style] getter reads: after
    it, the getter returns what it returned before. *)
Lemma style_get_after_style_set (value : JsVal) (providers providers' : gmap string JsVal) :
  style_set value providers = Returned providers' →
  style_get providers' = style_get providers.
Proof.
  unfold style_set, style_get.
  destruct (ensure_voiceSettings (ensure_record providers)) as [p1 | e] eqn:Hguard;
    [| done].
  cbn [mbind outcome_bind]. intros Hassign.
  rewrite (voice_field_assign_record "style" value p1 providers') by done.
  rewrite (voice_field_ensure_voiceSettings _ _ _ Hguard).
  by rewrite voice_field_ensure_record.
Qed.

(** C9, at the input where the code departs from it: on the empty store,
    [style.value = 0.3] stores [0.3] under [style] of the provider's
    record, beside [voiceSettings], and [style.value] still reads [0]. *)
Theorem style_set_then_get_loses_value :
  ∃ providers',
    style_set (JNum 0.3) ∅ = Returned providers'
    ∧ opt (record providers') "style" = JNum 0.3
    ∧ voice_field providers' "style" = JUndefined
    ∧ style_get providers' = JNum 0
    ∧ style_get providers' ≠ JNum 0.3.
Proof.
  eexists. split; [reflexivity |].
  split; [reflexivity |]. split; [reflexivity |]. split; [reflexivity |].
  match goal with |- ?g ≠ _ => change g with (JNum 0) end.
  by apply JNum_neq.
Qed.

(** *** Resetting *)

Lemma apiKey_get_after_reset (providerMetadata : option ProviderMetadata)
    (providers : gmap string JsVal) :
  apiKey_get (handleResetVoiceSettings providerMetadata providers)
  = default_apiKey providerMetadata.
Proof.
  unfold apiKey_get, handleResetVoiceSettings, default_apiKey.
  rewrite record_insert. cbn [opt].
  destruct providerMetadata as [md |]; [done |].
  by unfold prop; rewrite lookup_empty.
Qed.

(** C3, at the input where the code departs from it: after persisting
    [{apiKey: "k", voiceSettings: {stability: 0.9}}], the reset handler
    brings [stability] back to its default and replaces the whole record
    by a copy of the default options, so [apiKey] reads [''] and no longer
    ["k"]. *)
Theorem reset_erases_apiKey :
  let before := persisted_key_and_stability in
  let after := handleResetVoiceSettings (Some sample_metadata) before in
  apiKey_get before = JStr "k"
  ∧ stability_get before = JNum 0.9
  ∧ stability_get after = JNum 0.5
  ∧ record after = JObj {[ "baseUrl" := JStr "https://unspeech.hyp3r.link/v1/" ]}
  ∧ apiKey_get after = JStr ""
  ∧ apiKey_get after ≠ JStr "k".
Proof.
  cbv zeta. split; [reflexivity |]. split; [reflexivity |].
  split; [reflexivity |]. split; [apply record_insert |].
  split; [reflexivity |].
  rewrite apiKey_get_after_reset. by cbn.
Qed.

(** ** The LLM store before a client is set up *)

Section Unconfigured.

Context {Stream Models : Type}.
Variable new_OpenAI : gmap string JsVal → option JsError.
Variable createOpenAI : gmap string JsVal → option JsError.
Variable streamText : LLM.Handle → string → string → Outcome Stream.
Variable models_list : LLM.Handle → Outcome Models.



(** [setupOpenAI] has no check of its own: when the SDK accepts the
    options, both clients are built from them, with or without an
    [apiKey]. *)
Lemma setupOpenAI_builds_both (options : gmap string JsVal) (s : LLM.Store) :
  new_OpenAI (<["dangerouslyAllowBrowser" := JBool true]> options) = None →
  createOpenAI options = None →
  ∃ s', LLM.setupOpenAI new_OpenAI createOpenAI options s = (s', Returned ())
        ∧ LLM.settings <$> LLM.openAI s'
          = Some (<["dangerouslyAllowBrowser" := JBool true]> options)
        ∧ LLM.settings <$> LLM.openAIProvider s' = Some options.
Proof.
  intros Hclient Hprovider. unfold LLM.setupOpenAI.
  rewrite Hclient, Hprovider. by eexists.
Qed.



End Unconfigured.


(** ** Properties of the specification's instance cache *)

Section CacheIdentity.

Import InstanceCache.

Context {Fingerprint : Type} `{EqDecision Fingerprint}.
Variable fingerprint : Effective → Fingerprint.

Lemma cache_ok_invalidate (id : string) (r : Registry (Fingerprint := Fingerprint)) :
  cache_ok r → cache_ok (invalidate id r).
Proof.
  intros Hok id' fp i. cbn.
  destruct (decide (id = id')) as [-> | Hne].
  - by rewrite lookup_delete_eq.
  - rewrite lookup_delete_ne by done. apply Hok.
Qed.

Lemma cache_ok_update (id : string) (partial : Partial)
    (r : Registry (Fingerprint := Fingerprint)) :
  cache_ok r → cache_ok (update id partial r).
Proof. intros Hok. unfold update. apply cache_ok_invalidate. exact Hok. Qed.

Lemma cache_ok_getInstance (id : string) (r : Registry (Fingerprint := Fingerprint)) :
  cache_ok r → cache_ok (getInstance fingerprint id r).2.
Proof.
  intros Hok. unfold getInstance.
  destruct (catalog r !! id) as [d |]; [| done].
  destruct (eff_apiKey (resolve d (store r !! id))); [| done].
  assert (cache_ok
            {| catalog := catalog r; store := store r;
               cache := <[id := (fingerprint (resolve d (store r !! id)),
                                 {| serial := constructed r;
                                    config := resolve d (store r !! id) |})]> (cache r);
               constructed := S (constructed r) |}) as Hrebuilt.
  { intros id' fp i. cbn.
    destruct (decide (id = id')) as [-> | Hne].
    - rewrite lookup_insert_eq. intros [= <- <-]. cbn. lia.
    - rewrite lookup_insert_ne by done. intros Hi%Hok. lia. }
  destruct (cache r !! id) as [[fp i] |]; [| done].
  by destruct (decide (fp = fingerprint (resolve d (store r !! id)))).
Qed.

Lemma cache_ok_cold (r : Registry (Fingerprint := Fingerprint)) :
  cache r = ∅ → cache_ok r.
Proof. intros Hcold id fp i. by rewrite Hcold, lookup_empty. Qed.


(** An update cannot unset a credential that resolved before it. *)
Lemma eff_apiKey_after_merge (d : Descriptor) (partial : Partial)
    (old : option Persisted) :
  is_Some (eff_apiKey (resolve d old)) →
  is_Some (eff_apiKey (resolve d (Some (merge partial old)))).
Proof.
  destruct old as [p |]; cbn.
  - destruct (new_apiKey partial); cbn; [by eexists | done].
  - destruct (new_apiKey partial); cbn; [by eexists | done].
Qed.

(** A successful [getInstance] leaves the instance it returns in the
    cache, under the fingerprint of the current effective
    configuration. *)
Lemma getInstance_caches (id : string) (r r1 : Registry (Fingerprint := Fingerprint))
    (i : Instance) :
  cache_ok r →
  getInstance fingerprint id r = (inr i, r1) →
  ∃ d, catalog r1 !! id = Some d
       ∧ is_Some (eff_apiKey (resolve d (store r1 !! id)))
       ∧ cache r1 !! id = Some (fingerprint (resolve d (store r1 !! id)), i)
       ∧ serial i < constructed r1.
Proof.
  intros Hok. unfold getInstance.
  destruct (catalog r !! id) as [d |] eqn:Hd; [| done].
  destruct (eff_apiKey (resolve d (store r !! id))) as [key |] eqn:Hkey; [| done].
  destruct (cache r !! id) as [[fp i'] |] eqn:Hc.
  - destruct (decide (fp = fingerprint (resolve d (store r !! id)))) as [-> | Hne].
    + intros [= <- <-]. exists d. rewrite Hkey.
      split_and!; [done | by eexists | done | by eapply Hok].
    + intros [= <- <-]. exists d. cbn. rewrite Hkey, lookup_insert_eq.
      split_and!; [done | by eexists | done | lia].
  - intros [= <- <-]. exists d. cbn. rewrite Hkey, lookup_insert_eq.
    split_and!; [done | by eexists | done | lia].
Qed.

(** C5: in the specification's instance cache, a [getInstance] that
    follows a successful [getInstance] for the same provider id, with no
    configuration change in between, returns the same instance and
    constructs nothing; after any [update] of that provider the next
    [getInstance] returns an instance constructed anew, distinct from the
    earlier one. *)
Theorem getInstance_cached_until_update
    (id : string) (r r1 : Registry (Fingerprint := Fingerprint)) (i : Instance) :
  cache_ok r →
  getInstance fingerprint id r = (inr i, r1) →
  getInstance fingerprint id r1 = (inr i, r1)
  ∧ ∀ partial, ∃ j r2,
      getInstance fingerprint id (update id partial r1) = (inr j, r2)
      ∧ serial j = constructed r1
      ∧ serial j ≠ serial i
      ∧ j ≠ i.
Proof.
  intros Hok Hget.
  destruct (getInstance_caches id r r1 i Hok Hget)
    as (d & Hd & [key Hkey] & Hc & Hserial).
  split.
  - unfold getInstance. rewrite Hd, Hkey, Hc.
    by rewrite decide_True.
  - intros partial.
    destruct (eff_apiKey_after_merge d partial (store r1 !! id))
      as [key' Hkey']; [by eexists |].
    eexists _, _. split.
    + unfold getInstance, update, invalidate. cbn.
      rewrite Hd, lookup_insert_eq, Hkey', lookup_delete_eq. reflexivity.
    + cbn. split_and!; [done | lia |].
      intros Heq. apply (f_equal serial) in Heq. cbn in Heq. lia.
Qed.

End CacheIdentity.

(** On the sample registry: the first [getInstance] constructs instance
    [0]; the second returns it again; after an update of the endpoint the
    next one constructs instance [1]. *)
Lemma getInstance_cached_until_update_example :
  InstanceCache.getInstance sample_fingerprint providerId sample_registry_warm
  = (inr sample_instance, sample_registry_warm)
  ∧ ∀ partial, ∃ j r2,
      InstanceCache.getInstance sample_fingerprint providerId
        (InstanceCache.update providerId partial sample_registry_warm)
      = (inr j, r2)
      ∧ InstanceCache.serial j = InstanceCache.constructed sample_registry_warm
      ∧ InstanceCache.serial j ≠ InstanceCache.serial sample_instance
      ∧ j ≠ sample_instance.
Proof.
  apply (getInstance_cached_until_update sample_fingerprint providerId
           sample_registry sample_registry_warm sample_instance).
  - intros id fp i. cbn. by rewrite lookup_empty.
  - reflexivity.
Defined.
(** ** Requests made without a credential *)

Section WithoutCredential.

Context {Fingerprint : Type} `{EqDecision Fingerprint}.
Context {Stream Models Instance Response : Type}.
Variable fingerprint : InstanceCache.Effective → Fingerprint.
Variable new_OpenAI : gmap string JsVal → option JsError.
Variable createOpenAI : gmap string JsVal → option JsError.
Variable streamText : LLM.Handle → string → string → Outcome Stream.
Variable models_list : LLM.Handle → Outcome Models.
Variable getProviderInstance :
  gmap string JsVal → gmap string JsVal * Outcome (option Instance).
Variable generateSpeech :
  Instance → gmap string JsVal → list N → JsVal → Outcome Response.
Variable voiceMap : string → JsVal.
Variable createObjectURL : Response → string.
Variable engine_message : string.



End WithoutCredential.

(** A page with a non-breaking space for text: [trim] leaves nothing, so
    the call returns before a provider is asked for. *)
Lemma generateTestSpeech_blank_example :
  Playground.blank [160%N; 65279%N; 8232%N; 12288%N] = true
  ∧ Playground.blank (Playground.code_units "Hello!") = false
  ∧ ∀ p, Playground.testText p = [160%N] →
         Playground.generateTestSpeech (Instance := unit) (Response := unit)
           (λ store, (store, Thrown TypeError)) (λ _ _ _ _, Thrown TypeError)
           (λ _, JUndefined) (λ _, "") "" p
         = (p, Returned ()).
Proof.
  split_and!; [reflexivity .. |].
  intros p Htext. unfold Playground.generateTestSpeech. by rewrite Htext.
Qed.

(** ** Further properties of the page and of the LLM store *)

Lemma or_idemp (a b : JsVal) : or (or a b) b = or a b.
Proof. unfold or. destruct (truthy a) eqn:Ha; [by rewrite Ha | by destruct (truthy b)]. Qed.

Lemma coalesce_idemp (a d : JsVal) : coalesce (coalesce a d) d = coalesce a d.
Proof. unfold coalesce. destruct (nullish a) eqn:Ha; [by destruct (nullish d) | by rewrite Ha]. Qed.

Lemma baseUrl_stored_by_watcher (a d : JsVal) :
  or (or (or (or (or (or a d) (JStr "")) d) (JStr "")) d) (JStr "")
  = or (or a d) (JStr "").
Proof.
  unfold or. destruct (truthy a) eqn:Ha; cbn; rewrite ?Ha; cbn; rewrite ?Ha; [done |].
  destruct (truthy d) eqn:Hd; cbn; rewrite ?Hd; cbn; rewrite ?Hd; done.
Qed.

(** The watcher stores what the getters read, so it does not change what
    they read. *)
Lemma watch_settings_preserves_resolve
    (providerMetadata : option ProviderMetadata) (providers : gmap string JsVal) :
  resolve providerMetadata (watch_settings providerMetadata providers)
  = resolve providerMetadata providers.
Proof.
  unfold resolve, voiceSettings_get.
  assert (∀ k, voice_field (watch_settings providerMetadata providers) k
               = prop (voiceSettings_get providers) k) as Hvoice.
  { intros k. unfold voice_field, watch_settings.
    rewrite record_insert. cbn [opt]. by rewrite prop_insert. }
  destruct (voiceSettings_get_lookup providers) as (H1 & H2 & H3 & H4 & H5).
  f_equal.
  - unfold apiKey_get at 1, watch_settings. rewrite record_insert. cbn [opt].
    rewrite !prop_insert_ne, prop_insert by done.
    unfold apiKey_get. apply or_idemp.
  - unfold baseUrl_get at 1, watch_settings. rewrite record_insert. cbn [opt].
    rewrite prop_insert_ne, prop_insert by done.
    unfold baseUrl_get. apply baseUrl_stored_by_watcher.
  - unfold similarityBoost_get at 1, stability_get at 1, speed_get at 1,
      style_get at 1, useSpeakerBoost_get at 1.
    rewrite !Hvoice. unfold prop. rewrite H1, H2, H3, H4, H5. cbn [default].
    unfold id.
    unfold similarityBoost_get, stability_get, speed_get, style_get,
      useSpeakerBoost_get.
    rewrite !coalesce_idemp.
    by destruct (not_false (voice_field providers "useSpeakerBoost")).
Qed.

(** After the [style] setter, the watcher writes the unchanged getter
    value into [voiceSettings.style]: the value handed to the setter never
    becomes the effective style. *)
Lemma style_get_after_style_set_and_watcher
    (providerMetadata : option ProviderMetadata) (value : JsVal)
    (providers providers' : gmap string JsVal) :
  style_set value providers = Returned providers' →
  style_get (watch_settings providerMetadata providers') = style_get providers.
Proof.
  intros Hset.
  pose proof (watch_settings_preserves_resolve providerMetadata providers') as Hw.
  apply (f_equal (λ e, eff_voiceSettings e !! "style")) in Hw.
  cbn [resolve eff_voiceSettings] in Hw.
  destruct (voiceSettings_get_lookup (watch_settings providerMetadata providers'))
    as (_ & _ & _ & H4 & _).
  destruct (voiceSettings_get_lookup providers') as (_ & _ & _ & H4' & _).
  rewrite H4, H4' in Hw. injection Hw as ->.
  by eapply style_get_after_style_set.
Qed.

(** After the reset and the watcher run that follows it, the credential
    still reads as the default options give it. *)
Lemma apiKey_get_after_reset_and_watcher
    (providerMetadata : option ProviderMetadata) (providers : gmap string JsVal) :
  apiKey_get (watch_settings providerMetadata
                (handleResetVoiceSettings providerMetadata providers))
  = default_apiKey providerMetadata.
Proof.
  pose proof (watch_settings_preserves_resolve providerMetadata
                (handleResetVoiceSettings providerMetadata providers)) as Hw.
  apply (f_equal eff_apiKey) in Hw. cbn [resolve eff_apiKey] in Hw.
  rewrite Hw. apply apiKey_get_after_reset.
Qed.

Section LLMIdentity.

Variable new_OpenAI : gmap string JsVal → option JsError.
Variable createOpenAI : gmap string JsVal → option JsError.

Lemma handles_ok_initial : handles_ok LLM.initial.
Proof. intros h [Hh | Hh]; discriminate. Qed.

Lemma handles_ok_setupOpenAI (options : gmap string JsVal) (s : LLM.Store) :
  handles_ok s →
  handles_ok (LLM.setupOpenAI new_OpenAI createOpenAI options s).1.
Proof.
  intros Hok. unfold LLM.setupOpenAI.
  destruct (new_OpenAI _); [done |].
  destruct (createOpenAI _); cbn.
  - intros h [[= <-] | Hh]; cbn; [lia |].
    specialize (Hok h (or_intror Hh)). lia.
  - intros h [[= <-] | [= <-]]; cbn; lia.
Qed.

(** X16: reading a ref twice gives the same object; every successful
    [setupOpenAI] replaces both refs by objects allocated anew, whether
    or not the options changed. *)
Lemma setupOpenAI_allocates_anew (options : gmap string JsVal)
    (s s' : LLM.Store) (old new : LLM.Handle) :
  handles_ok s →
  LLM.setupOpenAI new_OpenAI createOpenAI options s = (s', Returned ()) →
  LLM.openAI s = Some old ∨ LLM.openAIProvider s = Some old →
  LLM.openAI s' = Some new ∨ LLM.openAIProvider s' = Some new →
  LLM.address new ≠ LLM.address old.
Proof.
  intros Hok Hsetup Hold Hnew. specialize (Hok old Hold).
  unfold LLM.setupOpenAI in Hsetup.
  destruct (new_OpenAI _); [done |].
  destruct (createOpenAI _); [done |].
  injection Hsetup as <-. cbn in Hnew.
  destruct Hnew as [[= <-] | [= <-]]; cbn; lia.
Qed.

End LLMIdentity.

(** ** How the setters compose *)

Lemma opt_record_ensure_record (providers : gmap string JsVal) (k : string) :
  opt (record (ensure_record providers)) k = opt (record providers) k.
Proof.
  unfold ensure_record.
  destruct (truthy (record providers)) eqn:Ht; [done |].
  rewrite record_insert. cbn [opt]. unfold prop. rewrite lookup_empty.
  by rewrite (falsy_not_obj _ _ Ht).
Qed.

Lemma opt_record_assign_record (k : string) (v : JsVal)
    (providers providers' : gmap string JsVal) (k' : string) :
  k ≠ k' →
  assign_record k v providers = Returned providers' →
  opt (record providers') k' = opt (record providers) k'.
Proof.
  intros Hne (r & Hr & ->)%assign_record_inv.
  rewrite record_insert, Hr. cbn [opt]. by rewrite prop_insert_ne.
Qed.

Lemma opt_record_ensure_voiceSettings
    (providers providers' : gmap string JsVal) (k' : string) :
  "voiceSettings" ≠ k' →
  ensure_voiceSettings providers = Returned providers' →
  opt (record providers') k' = opt (record providers) k'.
Proof.
  intros Hne. unfold ensure_voiceSettings.
  destruct (truthy (opt (record providers) "voiceSettings")).
  - by intros [= <-].
  - by apply opt_record_assign_record.
Qed.

Lemma assign_voice_inv (k : string) (v : JsVal)
    (providers providers' : gmap string JsVal) :
  assign_voice k v providers = Returned providers' →
  ∃ r vs, record providers = JObj r
          ∧ prop r "voiceSettings" = JObj vs
          ∧ providers'
            = <[providerId := JObj (<["voiceSettings" := JObj (<[k := v]> vs)]> r)]>
                providers.
Proof.
  unfold assign_voice.
  destruct (record providers) as [| | | | | r] eqn:Hr; try done.
  cbn [opt]. destruct (prop r "voiceSettings") as [| | | | | vs] eqn:Hvs; try done.
  cbn. unfold assign_record. rewrite Hr. cbn.
  intros [= <-]. by exists r, vs.
Qed.

Lemma assign_voice_effect (k : string) (v : JsVal)
    (providers providers' : gmap string JsVal) :
  assign_voice k v providers = Returned providers' →
  voice_field providers' k = v
  ∧ (∀ k', k ≠ k' → voice_field providers' k' = voice_field providers k')
  ∧ (∀ k', "voiceSettings" ≠ k' →
           opt (record providers') k' = opt (record providers) k').
Proof.
  intros (r & vs & Hr & Hvs & ->)%assign_voice_inv.
  unfold voice_field. rewrite record_insert, Hr. cbn [opt].
  rewrite prop_insert, Hvs. cbn [opt].
  split_and!.
  - apply prop_insert.
  - intros k' Hne. by rewrite prop_insert_ne.
  - intros k' Hne. by rewrite prop_insert_ne.
Qed.

Lemma bind_returned {A B : Type} (m : Outcome A) (k : A → Outcome B) (b : B) :
  (a ← m; k a) = Returned b → ∃ a, m = Returned a ∧ k a = Returned b.
Proof. destruct m as [a | e]; cbn; [by exists a | done]. Qed.

(** What a setter that returns leaves alone: the credential and the
    endpoint unless it is their own setter, and every voice setting but
    the one its last assignment names. *)
Lemma setter_effect (s : Setting) (value : JsVal)
    (providers providers' : gmap string JsVal) :
  setter s value providers = Returned providers' →
  (s ≠ ApiKey → opt (record providers') "apiKey" = opt (record providers) "apiKey")
  ∧ (s ≠ BaseUrl → opt (record providers') "baseUrl" = opt (record providers) "baseUrl")
  ∧ (∀ k, written_path s ≠ ["voiceSettings"; k] →
          voice_field providers' k = voice_field providers k).
Proof.
  assert (∀ k v, assign_record k v (ensure_record providers) = Returned providers' →
            ∀ k', k ≠ k' → opt (record providers') k' = opt (record providers) k')
    as Hrecord.
  { intros k v Hset k' Hne.
    rewrite (opt_record_assign_record _ _ _ _ _ Hne Hset).
    apply opt_record_ensure_record. }
  assert (∀ k v, (p ← ensure_voiceSettings (ensure_record providers);
                  assign_voice k v p) = Returned providers' →
            (∀ k', "voiceSettings" ≠ k' →
                   opt (record providers') k' = opt (record providers) k')
            ∧ (∀ k', k ≠ k' → voice_field providers' k' = voice_field providers k'))
    as Hvoice.
  { intros k v (p1 & Hguard & Hassign)%bind_returned.
    destruct (assign_voice_effect _ _ _ _ Hassign) as (_ & Hother & Hrec).
    split.
    - intros k' Hne. rewrite (Hrec k' Hne).
      rewrite (opt_record_ensure_voiceSettings _ _ _ Hne Hguard).
      apply opt_record_ensure_record.
    - intros k' Hne. rewrite (Hother k' Hne).
      rewrite (voice_field_ensure_voiceSettings _ _ _ Hguard).
      apply voice_field_ensure_record. }
  destruct s; cbn [setter written_path].
  - intros Hset. pose proof (Hrecord _ _ Hset) as H.
    split_and!; [done | by intros _; apply H |].
    intros k _. unfold voice_field. by rewrite H.
  - intros Hset. pose proof (Hrecord _ _ Hset) as H.
    split_and!; [by intros _; apply H | done |].
    intros k _. unfold voice_field. by rewrite H.
  - intros [Hrec Hother]%Hvoice.
    split_and!; [by intros _; apply Hrec | by intros _; apply Hrec |].
    intros k Hk. apply Hother. congruence.
  - intros [Hrec Hother]%Hvoice.
    split_and!; [by intros _; apply Hrec | by intros _; apply Hrec |].
    intros k Hk. apply Hother. congruence.
  - intros [Hrec Hother]%Hvoice.
    split_and!; [by intros _; apply Hrec | by intros _; apply Hrec |].
    intros k Hk. apply Hother. congruence.
  - unfold style_set. intros (p1 & Hguard & Hassign)%bind_returned.
    split_and!.
    + intros _. rewrite (opt_record_assign_record "style" value p1 providers' "apiKey" ltac:(done) Hassign).
      rewrite (opt_record_ensure_voiceSettings _ _ "apiKey" ltac:(done) Hguard).
      apply opt_record_ensure_record.
    + intros _. rewrite (opt_record_assign_record "style" value p1 providers' "baseUrl" ltac:(done) Hassign).
      rewrite (opt_record_ensure_voiceSettings _ _ "baseUrl" ltac:(done) Hguard).
      apply opt_record_ensure_record.
    + intros k _.
      rewrite (voice_field_assign_record "style" value p1 providers') by done.
      rewrite (voice_field_ensure_voiceSettings _ _ _ Hguard).
      apply voice_field_ensure_record.
  - intros [Hrec Hother]%Hvoice.
    split_and!; [by intros _; apply Hrec | by intros _; apply Hrec |].
    intros k Hk. apply Hother. congruence.
Qed.

Lemma lookup_ensure_record (providers : gmap string JsVal) (id : string) :
  id ≠ providerId → ensure_record providers !! id = providers !! id.
Proof.
  intros Hne. unfold ensure_record.
  destruct (truthy (record providers)); [done |]. by rewrite lookup_insert_ne.
Qed.

Lemma lookup_assign_record (k : string) (v : JsVal)
    (providers providers' : gmap string JsVal) (id : string) :
  id ≠ providerId →
  assign_record k v providers = Returned providers' →
  providers' !! id = providers !! id.
Proof.
  intros Hne (r & Hr & ->)%assign_record_inv. by rewrite lookup_insert_ne.
Qed.

Lemma lookup_ensure_voiceSettings (providers providers' : gmap string JsVal)
    (id : string) :
  id ≠ providerId →
  ensure_voiceSettings providers = Returned providers' →
  providers' !! id = providers !! id.
Proof.
  intros Hne. unfold ensure_voiceSettings.
  destruct (truthy (opt (record providers) "voiceSettings")).
  - by intros [= <-].
  - by apply lookup_assign_record.
Qed.

Lemma setter_other_providers (s : Setting) (value : JsVal)
    (providers providers' : gmap string JsVal) (id : string) :
  id ≠ providerId →
  setter s value providers = Returned providers' →
  providers' !! id = providers !! id.
Proof.
  intros Hne.
  assert (∀ k v, assign_record k v (ensure_record providers) = Returned providers' →
                 providers' !! id = providers !! id) as Hrecord.
  { intros k v Hset. rewrite (lookup_assign_record _ _ _ _ _ Hne Hset).
    by apply lookup_ensure_record. }
  assert (∀ p1, ensure_voiceSettings (ensure_record providers) = Returned p1 →
                p1 !! id = providers !! id) as Hguard.
  { intros p1 Hg. rewrite (lookup_ensure_voiceSettings _ _ _ Hne Hg).
    by apply lookup_ensure_record. }
  assert (∀ k v, (p ← ensure_voiceSettings (ensure_record providers);
                  assign_voice k v p) = Returned providers' →
                 providers' !! id = providers !! id) as Hvoice.
  { intros k v (p1 & Hg & Hassign)%bind_returned.
    apply assign_voice_inv in Hassign as (r & vs & _ & _ & ->).
    rewrite lookup_insert_ne by done. by apply Hguard. }
  destruct s; cbn [setter]; try apply Hrecord; try apply Hvoice.
  unfold style_set. intros (p1 & Hg & Hassign)%bind_returned.
  rewrite (lookup_assign_record _ _ _ _ _ Hne Hassign). by apply Hguard.
Qed.

Lemma getter_after_other_setter
    (providerMetadata : option ProviderMetadata) (s s' : Setting) (value : JsVal)
    (providers providers' : gmap string JsVal) :
  setter s value providers = Returned providers' →
  s' ≠ s →
  getter providerMetadata s' providers' = getter providerMetadata s' providers.
Proof.
  intros Hset Hne.
  destruct (setter_effect _ _ _ _ Hset) as (Hkey & Hurl & Hvoice).
  destruct s'; cbn [getter];
    unfold apiKey_get, baseUrl_get, similarityBoost_get, stability_get, speed_get,
      style_get, useSpeakerBoost_get.
  - by rewrite Hkey.
  - by rewrite Hurl.
  - rewrite Hvoice; [done |]. destruct s; cbn; congruence.
  - rewrite Hvoice; [done |]. destruct s; cbn; congruence.
  - rewrite Hvoice; [done |]. destruct s; cbn; congruence.
  - rewrite Hvoice; [done |]. destruct s; cbn; congruence.
  - rewrite Hvoice; [done |]. destruct s; cbn; congruence.
Qed.

(** X1: a setter that returns changes nothing but its own setting: every
    other getter reads what it read before, and the entries of the other
    providers are untouched. *)
Theorem setter_leaves_other_settings
    (providerMetadata : option ProviderMetadata) (s : Setting) (value : JsVal)
    (providers providers' : gmap string JsVal) :
  setter s value providers = Returned providers' →
  (∀ s', s' ≠ s →
         getter providerMetadata s' providers' = getter providerMetadata s' providers)
  ∧ (∀ id, id ≠ providerId → providers' !! id = providers !! id).
Proof.
  intros Hset. split.
  - intros s' Hne. by eapply getter_after_other_setter.
  - intros id Hne. by eapply setter_other_providers.
Qed.

(** Moving the stability slider leaves the speed as it was. *)
Lemma setter_leaves_other_settings_example :
  (∀ s', s' ≠ Stability →
     getter None s'
       (<[providerId :=
            JObj {[ "apiKey" := JStr "k";
                    "voiceSettings" := JObj {[ "stability" := JNum 0.3 ]} ]}]>
          persisted_key_and_stability)
     = getter None s' persisted_key_and_stability)
  ∧ (∀ id, id ≠ providerId →
       (<[providerId :=
            JObj {[ "apiKey" := JStr "k";
                    "voiceSettings" := JObj {[ "stability" := JNum 0.3 ]} ]}]>
          persisted_key_and_stability) !! id
       = persisted_key_and_stability !! id).
Proof.
  apply (setter_leaves_other_settings None Stability (JNum 0.3)
           persisted_key_and_stability).
  vm_compute. reflexivity.
Defined.

Lemma guards_returned (providers providers' : gmap string JsVal) :
  ensure_voiceSettings (ensure_record providers) = Returned providers' →
  ∃ r, record providers' = JObj r ∧ truthy (prop r "voiceSettings") = true.
Proof.
  unfold ensure_voiceSettings.
  destruct (truthy (opt (record (ensure_record providers)) "voiceSettings")) eqn:Ht.
  - intros [= <-].
    destruct (record (ensure_record providers)) as [| | | | | r]; try done.
    by exists r.
  - intros (r & Hr & ->)%assign_record_inv. eexists.
    rewrite record_insert. split; [done |]. by rewrite prop_insert.
Qed.

Lemma guards_stable (providers r : gmap string JsVal) :
  record providers = JObj r →
  truthy (prop r "voiceSettings") = true →
  ensure_voiceSettings (ensure_record providers) = Returned providers.
Proof.
  intros Hr Ht. unfold ensure_record. rewrite Hr. cbn [truthy].
  unfold ensure_voiceSettings. rewrite Hr. cbn [opt]. by rewrite Ht.
Qed.

Lemma assign_record_twice (k : string) (v1 v2 : JsVal) (providers : gmap string JsVal) :
  (p ← assign_record k v1 providers; assign_record k v2 (ensure_record p))
  = assign_record k v2 providers.
Proof.
  unfold assign_record.
  destruct (record providers) as [| | | | | r] eqn:Hr; try done.
  cbn. unfold ensure_record. rewrite record_insert. cbn [truthy].
  rewrite record_insert. cbn.
  by rewrite !insert_insert_eq.
Qed.

Lemma assign_voice_twice (k : string) (v1 v2 : JsVal) (providers : gmap string JsVal) :
  (p ← assign_voice k v1 providers;
   q ← ensure_voiceSettings (ensure_record p); assign_voice k v2 q)
  = assign_voice k v2 providers.
Proof.
  destruct (assign_voice k v1 providers) as [p | e] eqn:Hfirst; cbn.
  - apply assign_voice_inv in Hfirst as (r & vs & Hr & Hvs & ->).
    rewrite (guards_stable _ (<["voiceSettings" := JObj (<[k := v1]> vs)]> r));
      [| apply record_insert | by rewrite prop_insert].
    cbn. unfold assign_voice, assign_record.
    rewrite record_insert, Hr. cbn [opt]. rewrite prop_insert, Hvs. cbn.
    by rewrite !insert_insert_eq.
  - unfold assign_voice in *.
    destruct (record providers) as [| | | | | r] eqn:Hr; try done.
    cbn [opt] in *.
    destruct (prop r "voiceSettings") as [| | | | | vs]; try done.
    cbn in Hfirst. unfold assign_record in Hfirst. by rewrite Hr in Hfirst.
Qed.

(** X2: writing a setting twice is writing the last value once: the store
    after [x.value = v1; x.value = v2] is the store after [x.value = v2],
    and the pair throws exactly when the single write does. *)
Theorem setter_last_write_wins
    (s : Setting) (v1 v2 : JsVal) (providers : gmap string JsVal) :
  (p ← setter s v1 providers; setter s v2 p) = setter s v2 providers.
Proof.
  assert (∀ k, (p ← (q ← ensure_voiceSettings (ensure_record providers);
                     assign_voice k v1 q);
                q ← ensure_voiceSettings (ensure_record p); assign_voice k v2 q)
               = (q ← ensure_voiceSettings (ensure_record providers);
                  assign_voice k v2 q)) as Hvoice.
  { intros k.
    destruct (ensure_voiceSettings (ensure_record providers)) as [p1 | e]; [| done].
    cbn [mbind outcome_bind]. apply assign_voice_twice. }
  destruct s; cbn [setter];
    unfold apiKey_set, baseUrl_set, similarityBoost_set, stability_set, speed_set,
      useSpeakerBoost_set;
    try apply assign_record_twice; try apply Hvoice.
  unfold style_set.
  destruct (ensure_voiceSettings (ensure_record providers)) as [p1 | e] eqn:Hguard;
    [| done].
  cbn [mbind outcome_bind].
  destruct (guards_returned _ _ Hguard) as (r & Hr & Ht).
  unfold assign_record. rewrite Hr. cbn.
  rewrite (guards_stable _ (<["style" := v1]> r));
    [| apply record_insert | by rewrite prop_insert_ne].
  cbn. rewrite record_insert. cbn.
  by rewrite !insert_insert_eq.
Qed.

(** X3: on a record that is absent or an object, the credential and the
    endpoint read back what was written when it is truthy; writing a falsy
    value (the emptied input) makes the credential read [''] and the
    endpoint read the descriptor's default, or [''] without one. *)
Theorem apiKey_baseUrl_set_then_get
    (providerMetadata : option ProviderMetadata) (value : JsVal)
    (providers : gmap string JsVal) :
  absent_or_object (record providers) = true →
  (∃ providers',
     apiKey_set value providers = Returned providers'
     ∧ apiKey_get providers' = (if truthy value then value else JStr ""))
  ∧ (∃ providers',
     baseUrl_set value providers = Returned providers'
     ∧ baseUrl_get providerMetadata providers'
       = (if truthy value then value
          else or (default_baseUrl providerMetadata) (JStr ""))).
Proof.
  intros Hshape. split.
  - eexists. split; [by apply assign_record_after_guard |].
    unfold apiKey_get. rewrite record_insert. cbn [opt]. by rewrite prop_insert.
  - eexists. split; [by apply assign_record_after_guard |].
    unfold baseUrl_get. rewrite record_insert. cbn [opt]. rewrite prop_insert.
    unfold or at 2. destruct (truthy value) eqn:Ht; [| done].
    unfold or. by rewrite Ht.
Qed.

(** Emptying both inputs on a record with an endpoint override: the
    credential reads [''], the endpoint reads the default again. *)
Lemma apiKey_baseUrl_set_then_get_example :
  (∃ providers',
     apiKey_set (JStr "") persisted_baseUrl = Returned providers'
     ∧ apiKey_get providers' = JStr "")
  ∧ (∃ providers',
     baseUrl_set (JStr "") persisted_baseUrl = Returned providers'
     ∧ baseUrl_get (Some sample_metadata) providers'
       = JStr "https://unspeech.hyp3r.link/v1/").
Proof.
  apply (apiKey_baseUrl_set_then_get (Some sample_metadata) (JStr "")
           persisted_baseUrl).
  reflexivity.
Defined.

(** ** The watcher, the reset and sequences of operations *)

Lemma record_watch_settings (providerMetadata : option ProviderMetadata)
    (providers : gmap string JsVal) :
  record (watch_settings providerMetadata providers)
  = JObj (<["voiceSettings" := JObj (voiceSettings_get providers)]>
         (<["baseUrl" := or (or (baseUrl_get providerMetadata providers)
                                (default_baseUrl providerMetadata)) (JStr "")]>
         (<["apiKey" := apiKey_get providers]> (spread (record providers))))).
Proof. unfold watch_settings. apply record_insert. Qed.

Lemma well_shaped_watch_settings (providerMetadata : option ProviderMetadata)
    (providers : gmap string JsVal) :
  well_shaped (watch_settings providerMetadata providers).
Proof.
  unfold well_shaped. rewrite record_watch_settings. cbn [opt].
  by rewrite prop_insert.
Qed.


Lemma setter_preserves_layout (s : Setting) (value : JsVal)
    (providers : gmap string JsVal) :
  well_shaped providers →
  ∃ providers', setter s value providers = Returned providers'
                ∧ well_shaped providers'.
Proof.
  intros Hshape. pose proof Hshape as [Hrec Hvs].
  assert (absent_or_object (prop (record_fields providers) "voiceSettings") = true)
    as Hfields.
  { unfold record_fields.
    destruct (absent_or_object_cases _ Hrec) as [Hf | [r Hr]].
    - by rewrite (falsy_is_not_object _ Hf).
    - by rewrite Hr in *. }
  destruct (decide (s = Style)) as [-> | Hns].
  - eexists. split; [by apply style_setter_result |].
    unfold well_shaped. rewrite record_insert. cbn [opt].
    by rewrite prop_insert_ne, prop_insert.
  - destruct (is_voice_setting s) eqn:Hvoice.
    + assert (∃ k, written_path s = ["voiceSettings"; k]) as [k Hk]
        by (destruct s; try done; by eexists).
      eexists. split; [by apply voice_setter_result |].
      unfold well_shaped. rewrite record_insert. cbn [opt].
      by rewrite prop_insert.
    + assert (∃ k, k ≠ "voiceSettings"
                   ∧ setter s value providers
                     = assign_record k value (ensure_record providers))
        as (k & Hk & ->)
        by (destruct s; try done; eexists; (split; [| reflexivity]); done).
      eexists. split; [by apply assign_record_after_guard |].
      unfold well_shaped. rewrite record_insert. cbn [opt].
      by rewrite prop_insert_ne.
Qed.

Lemma well_shaped_reset (providerMetadata : option ProviderMetadata)
    (providers : gmap string JsVal) :
  absent_or_object (default_voiceSettings providerMetadata) = true →
  well_shaped (handleResetVoiceSettings providerMetadata providers).
Proof.
  intros Hdefault. unfold well_shaped, handleResetVoiceSettings.
  rewrite record_insert. cbn [opt]. split; [done |].
  destruct providerMetadata as [md |]; [done |].
  by unfold prop; rewrite lookup_empty.
Qed.

Lemma default_voiceSettings_written (providerMetadata : option ProviderMetadata)
    (voiceSettings : JsVal) :
  default_voiceSettings (with_default_voiceSettings providerMetadata voiceSettings)
  = match providerMetadata with
    | Some _ => voiceSettings
    | None => JUndefined
    end.
Proof.
  destruct providerMetadata as [md |]; [| done].
  cbn. apply prop_insert.
Qed.

(** Each action keeps the layout of the store and of the descriptor's
    [voiceSettings], also when it writes the object they share. *)
Lemma step_preserves_layout (a : Action) (σ : Session) :
  well_shaped (store σ) →
  absent_or_object (default_voiceSettings (descriptor σ)) = true →
  ∃ σ', step a σ = Returned σ'
        ∧ well_shaped (store σ')
        ∧ absent_or_object (default_voiceSettings (descriptor σ')) = true.
Proof.
  intros Hshape Hdefault. destruct a as [s value | |]; cbn [step].
  - destruct (setter_preserves_layout s value (store σ) Hshape) as (p & -> & Hp).
    cbn [mbind outcome_bind]. eexists. split; [reflexivity |].
    destruct (shared σ && assigns_into_voiceSettings s); cbn; [| done].
    split; [done |]. rewrite default_voiceSettings_written.
    destruct (descriptor σ); [apply Hp | done].
  - eexists. split; [reflexivity |]. cbn.
    split; [apply well_shaped_watch_settings | done].
  - eexists. split; [reflexivity |]. cbn.
    split; [by apply well_shaped_reset | done].
Qed.

Lemma run_session_preserves_layout (actions : list Action) (σ : Session) :
  well_shaped (store σ) →
  absent_or_object (default_voiceSettings (descriptor σ)) = true →
  ∃ σ', run_session actions σ = Returned σ'
        ∧ well_shaped (store σ')
        ∧ absent_or_object (default_voiceSettings (descriptor σ')) = true.
Proof.
  revert σ. induction actions as [| a rest IH]; intros σ Hshape Hdefault.
  - by exists σ.
  - cbn [run_session].
    destruct (step_preserves_layout a σ Hshape Hdefault) as (σ1 & -> & H1 & H2).
    cbn [mbind outcome_bind]. by apply IH.
Qed.

(** X6: the persisted layout is an invariant.  From a store whose record
    and voice settings are each absent or an object, and with default
    options whose [voiceSettings] entry is absent or an object, no
    sequence of setter calls, watcher runs and resets throws, and the
    store it ends in has that layout again. *)
Theorem operations_never_throw
    (providerMetadata : option ProviderMetadata) (actions : list Action)
    (providers : gmap string JsVal) :
  well_shaped providers →
  absent_or_object (default_voiceSettings providerMetadata) = true →
  ∃ providers',
    run providerMetadata actions providers = Returned providers'
    ∧ well_shaped providers'.
Proof.
  intros Hshape Hdefault. unfold run.
  destruct (run_session_preserves_layout actions
              (opened providerMetadata providers) Hshape Hdefault)
    as (σ' & -> & Hshape' & _).
  cbn [mbind outcome_bind]. by exists (store σ').
Qed.

Lemma operations_never_throw_example :
  ∃ providers',
    run (Some sample_metadata)
      [Edit Stability (JNum 0.8); Flush; Edit Style (JNum 0.3); Reset;
       Edit ApiKey (JStr "k"); Flush] ∅
    = Returned providers'
    ∧ well_shaped providers'.
Proof.
  apply (operations_never_throw (Some sample_metadata)); [| reflexivity].
  split; reflexivity.
Defined.










(** With an object for [voiceSettings] in the default options, the record
    shares it after a reset: a stability set then is written into the
    default options, and the next reset reads it back, with or without a
    watcher run in between. *)
Lemma reset_after_shared_write_example :
  (∃ σ',
     run_session [Reset; Edit Stability (JNum 0.9); Flush; Reset]
       (opened (Some sample_metadata_with_voiceSettings) ∅)
     = Returned σ'
     ∧ stability_get (store σ') = JNum 0.9
     ∧ default_voiceSettings (descriptor σ') = JObj {[ "stability" := JNum 0.9 ]}
     ∧ default_baseUrl (descriptor σ')
       = default_baseUrl (Some sample_metadata_with_voiceSettings))
  ∧ (∃ σ',
       run_session [Reset; Edit Stability (JNum 0.9); Reset]
         (opened (Some sample_metadata_with_voiceSettings) ∅)
       = Returned σ'
       ∧ stability_get (store σ') = JNum 0.9)
  ∧ (∃ σ',
       run_session [Reset; Flush; Edit Stability (JNum 0.9); Reset]
         (opened (Some sample_metadata_with_voiceSettings) ∅)
       = Returned σ'
       ∧ stability_get (store σ') = JNum 0.5).
Proof. split_and!; eexists; split_and!; reflexivity. Qed.

(** ** Mounting the page *)

Lemma resolve_of_getters (providerMetadata : option ProviderMetadata)
    (a b : gmap string JsVal) :
  (∀ s, getter providerMetadata s a = getter providerMetadata s b) →
  resolve providerMetadata a = resolve providerMetadata b.
Proof.
  intros Hg. unfold resolve, voiceSettings_get.
  pose proof (Hg ApiKey) as H1. pose proof (Hg BaseUrl) as H2.
  pose proof (Hg SimilarityBoost) as H3. pose proof (Hg Stability) as H4.
  pose proof (Hg Speed) as H5. pose proof (Hg Style) as H6.
  pose proof (Hg UseSpeakerBoost) as H7. cbn [getter] in *.
  by rewrite H1, H2, H3, H4, H5, H6, H7.
Qed.

Lemma baseUrl_written_back (a d : JsVal) :
  or (or (or (or a d) (JStr "")) d) (JStr "") = or (or a d) (JStr "").
Proof.
  unfold or. destruct (truthy a) eqn:Ha; cbn; rewrite ?Ha; cbn; rewrite ?Ha; [done |].
  destruct (truthy d) eqn:Hd; cbn; rewrite ?Hd; cbn; rewrite ?Hd; done.
Qed.

(** Writing a setting's current value back through its setter changes no
    getter and keeps the layout. *)
Lemma setter_with_current_value
    (providerMetadata : option ProviderMetadata) (s : Setting)
    (providers : gmap string JsVal) :
  well_shaped providers →
  ∃ providers',
    setter s (getter providerMetadata s providers) providers = Returned providers'
    ∧ well_shaped providers'
    ∧ (∀ s', getter providerMetadata s' providers'
             = getter providerMetadata s' providers)
    ∧ (s = ApiKey → opt (record providers') "apiKey" = apiKey_get providers)
    ∧ (s = BaseUrl →
       opt (record providers') "baseUrl" = baseUrl_get providerMetadata providers)
    ∧ (s ≠ ApiKey → opt (record providers') "apiKey" = opt (record providers) "apiKey")
    ∧ (s ≠ BaseUrl → opt (record providers') "baseUrl" = opt (record providers) "baseUrl").
Proof.
  intros Hshape.
  destruct (setter_preserves_layout s (getter providerMetadata s providers)
              providers Hshape) as (p & Hset & Hp).
  exists p. destruct (setter_effect _ _ _ _ Hset) as (Hkey & Hurl & _).
  assert (getter providerMetadata s p = getter providerMetadata s providers
          ∧ (s = ApiKey → opt (record p) "apiKey" = apiKey_get providers)
          ∧ (s = BaseUrl →
             opt (record p) "baseUrl" = baseUrl_get providerMetadata providers))
    as (Hown & Hk & Hu).
  { destruct (decide (s = Style)) as [-> | Hns].
    - split_and!; [| done | done]. cbn [getter] in *.
      by eapply style_get_after_style_set.
    - destruct (is_voice_setting s) eqn:Hvoice.
      + assert (∃ k, written_path s = ["voiceSettings"; k]) as [k Hk]
          by (destruct s; try done; by eexists).
        rewrite (voice_setter_result s k _ _ Hk Hshape) in Hset.
        injection Hset as <-.
        split_and!; [| by intros -> | by intros ->].
        destruct s; cbn in Hk; try discriminate; injection Hk as <-;
          cbn [getter];
          unfold similarityBoost_get, stability_get, speed_get,
            useSpeakerBoost_get, voice_field;
          rewrite record_insert; cbn [opt]; rewrite prop_insert; cbn [opt];
          rewrite prop_insert; fold (voice_field providers);
          try apply coalesce_idemp.
        by destruct (not_false (opt _ _)).
      + destruct Hshape as [Hrec _].
        destruct s; try done; cbn [setter getter] in *;
          unfold apiKey_set, baseUrl_set in Hset;
          rewrite (assign_record_after_guard _ _ _ Hrec) in Hset;
          injection Hset as <-.
        * unfold apiKey_get at 1. rewrite record_insert. cbn [opt].
          rewrite prop_insert. split_and!; [| done | done].
          unfold apiKey_get. apply or_idemp.
        * unfold baseUrl_get at 1. rewrite record_insert. cbn [opt].
          rewrite prop_insert. split_and!; [| done | done].
          unfold baseUrl_get. apply baseUrl_written_back. }
  split_and!; try done.
  intros s'. destruct (decide (s' = s)) as [-> | Hne]; [done |].
  by eapply getter_after_other_setter.
Qed.

Section MountingFacts.

Variable initializeProvider : gmap string JsVal → gmap string JsVal.
Variable configured : gmap string JsVal → bool.

(** The hook writes each setting's current value through its setter. *)
Lemma onMounted_unfold (providerMetadata : option ProviderMetadata)
    (providers : gmap string JsVal) :
  onMounted initializeProvider configured providerMetadata providers
  = (let m := providerMetadata in
     p ← setter ApiKey (getter m ApiKey (initializeProvider providers))
           (initializeProvider providers);
     p ← setter BaseUrl (getter m BaseUrl p) p;
     p ← (if truthy (opt (record p) "voiceSettings") then
            p ← setter SimilarityBoost (getter m SimilarityBoost p) p;
            p ← setter Stability (getter m Stability p) p;
            p ← setter Speed (getter m Speed p) p;
            p ← setter Style (getter m Style p) p;
            setter UseSpeakerBoost (getter m UseSpeakerBoost p) p
          else Returned p);
     Returned (p, configured p)).
Proof. reflexivity. Qed.

(** X9: mounting the page does not change the effective configuration.
    When [initializeProvider] leaves a store of the persisted layout, the
    hook returns, every getter reads afterwards what it read right after
    [initializeProvider], and the record then holds the credential and the
    endpoint the getters resolved, defaults included. *)
Theorem onMounted_keeps_effective_configuration
    (providerMetadata : option ProviderMetadata) (providers : gmap string JsVal) :
  well_shaped (initializeProvider providers) →
  ∃ providers',
    onMounted initializeProvider configured providerMetadata providers
    = Returned (providers', configured providers')
    ∧ well_shaped providers'
    ∧ resolve providerMetadata providers'
      = resolve providerMetadata (initializeProvider providers)
    ∧ opt (record providers') "apiKey" = apiKey_get (initializeProvider providers)
    ∧ opt (record providers') "baseUrl"
      = baseUrl_get providerMetadata (initializeProvider providers).
Proof.
  intros Hshape0. rewrite onMounted_unfold. cbv zeta.
  set (p0 := initializeProvider providers) in *.
  destruct (setter_with_current_value providerMetadata ApiKey p0 Hshape0)
    as (p1 & -> & Hshape1 & Hg1 & Hk1 & _ & _ & Hu1).
  cbn [mbind outcome_bind].
  destruct (setter_with_current_value providerMetadata BaseUrl p1 Hshape1)
    as (p2 & -> & Hshape2 & Hg2 & _ & Hu2 & Hk2 & _).
  cbn [mbind outcome_bind].
  assert (∀ s, getter providerMetadata s p2 = getter providerMetadata s p0) as Hg
    by (intros s; by rewrite Hg2, Hg1).
  assert (opt (record p2) "apiKey" = apiKey_get p0) as Hkey
    by (rewrite Hk2, Hk1; done).
  assert (opt (record p2) "baseUrl" = baseUrl_get providerMetadata p0) as Hurl
    by (rewrite Hu2 by done; apply (Hg1 BaseUrl)).
  destruct (truthy (opt (record p2) "voiceSettings")).
  - destruct (setter_with_current_value providerMetadata SimilarityBoost p2 Hshape2)
      as (p3 & -> & Hshape3 & Hg3 & _ & _ & Hk3 & Hu3).
    cbn [mbind outcome_bind].
    destruct (setter_with_current_value providerMetadata Stability p3 Hshape3)
      as (p4 & -> & Hshape4 & Hg4 & _ & _ & Hk4 & Hu4).
    cbn [mbind outcome_bind].
    destruct (setter_with_current_value providerMetadata Speed p4 Hshape4)
      as (p5 & -> & Hshape5 & Hg5 & _ & _ & Hk5 & Hu5).
    cbn [mbind outcome_bind].
    destruct (setter_with_current_value providerMetadata Style p5 Hshape5)
      as (p6 & -> & Hshape6 & Hg6 & _ & _ & Hk6 & Hu6).
    cbn [mbind outcome_bind].
    destruct (setter_with_current_value providerMetadata UseSpeakerBoost p6 Hshape6)
      as (p7 & -> & Hshape7 & Hg7 & _ & _ & Hk7 & Hu7).
    cbn [mbind outcome_bind].
    exists p7. split_and!; [done | done | | |].
    + apply resolve_of_getters. intros s.
      by rewrite Hg7, Hg6, Hg5, Hg4, Hg3, Hg.
    + by rewrite Hk7, Hk6, Hk5, Hk4, Hk3.
    + by rewrite Hu7, Hu6, Hu5, Hu4, Hu3.
  - cbn [mbind outcome_bind]. exists p2.
    split_and!; [done | done | | done | done].
    by apply resolve_of_getters.
Qed.

End MountingFacts.

(** Mounting on a store that holds a credential and one voice setting. *)
Lemma onMounted_keeps_effective_configuration_example :
  ∃ providers',
    onMounted (λ p, p) (λ _, true) (Some sample_metadata) persisted_key_and_stability
    = Returned (providers', true)
    ∧ well_shaped providers'
    ∧ resolve (Some sample_metadata) providers'
      = resolve (Some sample_metadata) persisted_key_and_stability
    ∧ opt (record providers') "apiKey" = apiKey_get persisted_key_and_stability
    ∧ opt (record providers') "baseUrl"
      = baseUrl_get (Some sample_metadata) persisted_key_and_stability.
Proof.
  apply (onMounted_keeps_effective_configuration (λ p, p) (λ _, true)
           (Some sample_metadata) persisted_key_and_stability).
  split; reflexivity.
Defined.

(** ** The playground and its audio *)

Lemma revoked_app (a b : list Playground.Effect) :
  revoked (a ++ b) = revoked a ++ revoked b.
Proof.
  induction a as [| e a IH]; [done |].
  destruct e; cbn; by rewrite IH.
Qed.

Lemma stopTestAudio_spec (p : Playground.Page) :
  Playground.audioUrl (Playground.stopTestAudio p) = ""
  ∧ revoked (Playground.effects (Playground.stopTestAudio p))
    = revoked (Playground.effects p)
      ++ (if negb (String.eqb (Playground.audioUrl p) "")
          then [Playground.audioUrl p] else [])
  ∧ Playground.providers (Playground.stopTestAudio p) = Playground.providers p
  ∧ Playground.testText (Playground.stopTestAudio p) = Playground.testText p
  ∧ Playground.selectedVoice (Playground.stopTestAudio p) = Playground.selectedVoice p
  ∧ Playground.audioPlayer (Playground.stopTestAudio p) = Playground.audioPlayer p
  ∧ Playground.isGenerating (Playground.stopTestAudio p) = Playground.isGenerating p
  ∧ Playground.errorMessage (Playground.stopTestAudio p) = Playground.errorMessage p
  ∧ ∃ more, Playground.effects (Playground.stopTestAudio p)
            = Playground.effects p ++ more.
Proof.
  unfold Playground.stopTestAudio.
  destruct (Playground.audioPlayer p) eqn:Hplayer; cbn;
    destruct (String.eqb (Playground.audioUrl p) "") eqn:Hurl; cbn;
    rewrite ?revoked_app, ?app_nil_r; cbn; rewrite ?app_nil_r;
    split_and!; try done;
    first [ by apply String.eqb_eq in Hurl
          | by rewrite <- ?app_assoc; eexists
          | by exists []; rewrite app_nil_r ].
Qed.

(** X12: an object URL is released once.  [stopTestAudio] clears
    [audioUrl] and revokes exactly the URL it held, if any; stopping
    again, or unmounting after a stop, revokes nothing more; unmounting
    without a stop revokes the URL the page still holds. *)
Theorem audio_url_revoked_once (p : Playground.Page) :
  let held := if negb (String.eqb (Playground.audioUrl p) "")
              then [Playground.audioUrl p] else [] in
  Playground.audioUrl (Playground.stopTestAudio p) = ""
  ∧ revoked (Playground.effects (Playground.stopTestAudio p))
    = revoked (Playground.effects p) ++ held
  ∧ revoked (Playground.effects
               (Playground.stopTestAudio (Playground.stopTestAudio p)))
    = revoked (Playground.effects p) ++ held
  ∧ revoked (Playground.effects (onUnmounted (Playground.stopTestAudio p)))
    = revoked (Playground.effects p) ++ held
  ∧ revoked (Playground.effects (onUnmounted p))
    = revoked (Playground.effects p) ++ held.
Proof.
  intros held. subst held.
  destruct (stopTestAudio_spec p) as (Hurl & Hrev & _).
  destruct (stopTestAudio_spec (Playground.stopTestAudio p)) as (_ & Hrev2 & _).
  split_and!; [done | done | | |].
  - rewrite Hrev2, Hurl, Hrev. cbn. by rewrite app_nil_r.
  - unfold onUnmounted. rewrite Hurl. by cbn.
  - unfold onUnmounted.
    destruct (negb (String.eqb (Playground.audioUrl p) "")); cbn.
    + by rewrite revoked_app.
    + by rewrite app_nil_r.
Qed.

Section PlaygroundRuns.

Context {Instance Response : Type}.
Variable getProviderInstance :
  gmap string JsVal → gmap string JsVal * Outcome (option Instance).
Variable generateSpeech :
  Instance → gmap string JsVal → list N → JsVal → Outcome Response.
Variable voiceMap : string → JsVal.
Variable createObjectURL : Response → string.
Variable engine_message : string.

(** X10: a test of the voice writes no setting of its own.  The text and
    the selected voice stay as they were, the store is as
    [getProviderInstance] left it (and untouched when [trim] leaves
    nothing of the text, for the provider is not asked then), and the call
    only adds to what the page has done so far. *)
Theorem generateTestSpeech_leaves_settings (p : Playground.Page) :
  let p' := (Playground.generateTestSpeech getProviderInstance generateSpeech
               voiceMap createObjectURL engine_message p).1 in
  Playground.providers p'
  = (if Playground.blank (Playground.testText p) then Playground.providers p
     else (getProviderInstance (Playground.providers p)).1)
  ∧ Playground.testText p' = Playground.testText p
  ∧ Playground.selectedVoice p' = Playground.selectedVoice p
  ∧ ∃ more, Playground.effects p' = Playground.effects p ++ more.
Proof.
  intros p'. subst p'. unfold Playground.generateTestSpeech.
  destruct (Playground.blank (Playground.testText p));
    [split_and!; try done; exists []; by rewrite app_nil_r |].
  destruct (getProviderInstance (Playground.providers p))
    as [providers' [[provider |] | e]];
    [| split_and!; try done; by eexists
     | split_and!; try done; exists []; by rewrite app_nil_r].
  cbn zeta.
  set (p0 := Playground.set_providers providers' p).
  set (q := Playground.set_errorMessage "" (Playground.set_isGenerating true p0)).
  set (q' := if negb (String.eqb (Playground.audioUrl q) "")
             then Playground.stopTestAudio q else q).
  assert (Playground.providers q' = providers'
          ∧ Playground.testText q' = Playground.testText p
          ∧ Playground.selectedVoice q' = Playground.selectedVoice p
          ∧ ∃ more, Playground.effects q' = Playground.effects p ++ more)
    as (H1 & H2 & H3 & more & H5).
  { subst q'. destruct (negb (String.eqb (Playground.audioUrl q) "")).
    - destruct (stopTestAudio_spec q) as (_ & _ & -> & -> & -> & _ & _ & _ & Hmore).
      by repeat split.
    - repeat split; try done. exists []. by rewrite app_nil_r. }
  destruct (generateSpeech provider _ _ _) as [response | error]; cbn.
  - split_and!; try done. rewrite H5, <- app_assoc. by eexists.
  - split_and!; try done. rewrite H5, <- app_assoc. by eexists.
Qed.

(** X11: a test that reaches the provider always settles.  With a text
    of which [trim] leaves something and an instance at hand, the call
    returns; once [generateSpeech] has settled and the template is
    rendered, [isGenerating] is cleared, the URL the page held is revoked
    exactly once, and the audio element is there exactly when [audioUrl]
    is set.  On success [audioUrl] is the new object URL, [errorMessage]
    is empty and the last thing done is to set the timer of 100 ms; on
    failure the exception is caught, [errorMessage] is its message and
    [audioUrl] is empty.  The voice settings handed to the provider are
    those of the store as [getProviderInstance] left it. *)
Theorem generateTestSpeech_settles (p : Playground.Page)
    (providers' : gmap string JsVal) (provider : Instance) :
  Playground.blank (Playground.testText p) = false →
  getProviderInstance (Playground.providers p)
  = (providers', Returned (Some provider)) →
  let run := Playground.generateTestSpeech getProviderInstance generateSpeech
               voiceMap createObjectURL engine_message p in
  run.2 = Returned ()
  ∧ Playground.isGenerating run.1 = false
  ∧ revoked (Playground.effects run.1)
    = revoked (Playground.effects p)
      ++ (if negb (String.eqb (Playground.audioUrl p) "")
          then [Playground.audioUrl p] else [])
  ∧ Playground.audioPlayer run.1
    = negb (String.eqb (Playground.audioUrl run.1) "")
  ∧ match generateSpeech provider (voiceSettings_get providers')
            (Playground.testText p) (voiceMap (Playground.selectedVoice p)) with
    | Returned response =>
        Playground.audioUrl run.1 = createObjectURL response
        ∧ Playground.errorMessage run.1 = ""
        ∧ ∃ earlier, Playground.effects run.1
                     = earlier ++ [Playground.SetTimeout 100]
    | Thrown error =>
        Playground.audioUrl run.1 = ""
        ∧ Playground.errorMessage run.1 = Playground.message_of engine_message error
    end.
Proof.
  intros Htext Hprovider run. subst run. unfold Playground.generateTestSpeech.
  rewrite Htext, Hprovider. cbn zeta.
  set (p0 := Playground.set_providers providers' p).
  set (q := Playground.set_errorMessage "" (Playground.set_isGenerating true p0)).
  set (q' := if negb (String.eqb (Playground.audioUrl q) "")
             then Playground.stopTestAudio q else q).
  assert (Playground.providers q' = providers'
          ∧ Playground.testText q' = Playground.testText p
          ∧ Playground.selectedVoice q' = Playground.selectedVoice p
          ∧ Playground.errorMessage q' = ""
          ∧ revoked (Playground.effects q')
            = revoked (Playground.effects p)
              ++ (if negb (String.eqb (Playground.audioUrl p) "")
                  then [Playground.audioUrl p] else [])
          ∧ (Playground.audioUrl q' = ""))
    as (H1 & H2 & H3 & H4 & H5 & H6).
  { subst q'. change (Playground.audioUrl q) with (Playground.audioUrl p).
    destruct (negb (String.eqb (Playground.audioUrl p) "")) eqn:Hurl.
    - destruct (stopTestAudio_spec q) as (-> & Hrev & -> & -> & -> & _ & _ & -> & _).
      change (Playground.audioUrl q) with (Playground.audioUrl p) in Hrev.
      rewrite Hurl in Hrev. by repeat split.
    - repeat split; try done; [by cbn; rewrite app_nil_r |].
      apply negb_false_iff, String.eqb_eq in Hurl. exact Hurl. }
  rewrite H1, H2, H3.
  destruct (generateSpeech provider _ _ _) as [response | error]; cbn.
  - split_and!; try done; [| by eexists].
    rewrite revoked_app, H5. cbn. by rewrite app_nil_r.
  - split_and!; try done. rewrite revoked_app, H5. cbn. by rewrite app_nil_r.
Qed.

End PlaygroundRuns.

(** A test on a page that still holds the audio of an earlier one: the old
    URL is revoked and the new one stored; the audio element is there when
    the timer fires, and is played. *)
Lemma generateTestSpeech_settles_example :
  let run := Playground.generateTestSpeech (λ store, (store, Returned (Some ())))
               (λ _ _ _ _, Returned "audio") (λ _, JUndefined)
               (λ response, "blob:" +:+ response) "" sample_page_with_audio in
  run.2 = Returned ()
  ∧ Playground.isGenerating run.1 = false
  ∧ revoked (Playground.effects run.1) = ["blob:old"]
  ∧ Playground.audioPlayer run.1 = true
  ∧ Playground.audioUrl run.1 = "blob:audio"
    ∧ Playground.errorMessage run.1 = ""
    ∧ ∃ earlier, Playground.effects run.1
                 = earlier ++ [Playground.SetTimeout 100].
Proof.
  apply (generateTestSpeech_settles (λ store, (store, Returned (Some ())))
           (λ _ _ _ _, Returned "audio") (λ _, JUndefined)
           (λ response, "blob:" +:+ response) "" sample_page_with_audio
           persisted_key_and_stability ());
    reflexivity.
Defined.

Lemma playTestAudio_example :
  let run := Playground.generateTestSpeech (λ store, (store, Returned (Some ())))
               (λ _ _ _ _, Returned "audio") (λ _, JUndefined)
               (λ response, "blob:" +:+ response) "" sample_page_with_audio in
  Playground.effects (Playground.playTestAudio run.1)
  = [Playground.PauseAudio; Playground.RevokeObjectURL "blob:old";
     Playground.SetTimeout 100; Playground.PlayAudio].
Proof. reflexivity. Qed.

(** ** Setting up the LLM store *)

Section LLMRuns.

Context {Stream Models : Type}.
Variable new_OpenAI : gmap string JsVal → option JsError.
Variable createOpenAI : gmap string JsVal → option JsError.
Variable streamText : LLM.Handle → string → string → Outcome Stream.
Variable models_list : LLM.Handle → Outcome Models.

(** X13: after a [setupOpenAI] that returns, [stream] and [models] reach
    the SDK.  [stream] calls it with a provider built from exactly the
    given options, [models] with a client built from them with
    [dangerouslyAllowBrowser] forced to [true], whatever the options said;
    neither throws the store's own 'OpenAI not initialized'. *)
Theorem setupOpenAI_then_calls (options : gmap string JsVal) (s : LLM.Store) :
  new_OpenAI (<["dangerouslyAllowBrowser" := JBool true]> options) = None →
  createOpenAI options = None →
  let s' := (LLM.setupOpenAI new_OpenAI createOpenAI options s).1 in
  (∀ model content,
     LLM.stream streamText model content s'
     = streamText {| LLM.address := S (LLM.allocated s); LLM.settings := options |}
         model content)
  ∧ (∃ client,
       LLM.models models_list s' = models_list client
       ∧ LLM.address client = LLM.allocated s
       ∧ LLM.settings client !! "dangerouslyAllowBrowser" = Some (JBool true)
       ∧ ∀ k, k ≠ "dangerouslyAllowBrowser" →
              LLM.settings client !! k = options !! k).
Proof.
  intros Hclient Hprovider s'. subst s'. unfold LLM.setupOpenAI.
  rewrite Hclient, Hprovider. cbn. split; [done |].
  eexists. split; [reflexivity |]. cbn. split_and!; [done | |].
  - by rewrite lookup_insert_eq.
  - intros k Hk. by rewrite lookup_insert_ne.
Qed.

(** X14: a [setupOpenAI] that throws may leave the store half set up.
    When [new OpenAI] throws, nothing changes.  When [createOpenAI] throws
    after [new OpenAI] succeeded, the client is already replaced: [models]
    uses the new options while [stream] behaves as before the call. *)
Theorem setupOpenAI_failure (options : gmap string JsVal) (s : LLM.Store)
    (e : JsError) :
  let run := LLM.setupOpenAI new_OpenAI createOpenAI options s in
  (new_OpenAI (<["dangerouslyAllowBrowser" := JBool true]> options) = Some e →
   run = (s, Thrown e))
  ∧ (new_OpenAI (<["dangerouslyAllowBrowser" := JBool true]> options) = None →
     createOpenAI options = Some e →
     run.2 = Thrown e
     ∧ (∀ model content,
          LLM.stream streamText model content run.1
          = LLM.stream streamText model content s)
     ∧ LLM.models models_list run.1
       = models_list
           {| LLM.address := LLM.allocated s;
              LLM.settings := <["dangerouslyAllowBrowser" := JBool true]> options |}).
Proof.
  intros run. subst run. unfold LLM.setupOpenAI. split.
  - by intros ->.
  - by intros -> ->.
Qed.

Lemma setupOpenAI_keeps_refs (options : gmap string JsVal) (s : LLM.Store) :
  let s' := (LLM.setupOpenAI new_OpenAI createOpenAI options s).1 in
  (is_Some (LLM.openAI s) → is_Some (LLM.openAI s'))
  ∧ (is_Some (LLM.openAIProvider s) → is_Some (LLM.openAIProvider s'))
  ∧ LLM.allocated s ≤ LLM.allocated s'.
Proof.
  cbv zeta. unfold LLM.setupOpenAI.
  destruct (new_OpenAI _); [done |].
  destruct (createOpenAI _); cbn; split_and!; try done; by eauto || lia.
Qed.

(** X15: the store never goes back to uninitialized.  Once both refs are
    set, they stay set through any further [setupOpenAI] calls, failed
    ones included, so [stream] and [models] keep reaching the SDK. *)
Theorem setups_stay_initialized (calls : list (gmap string JsVal)) (s : LLM.Store) :
  is_Some (LLM.openAI s) →
  is_Some (LLM.openAIProvider s) →
  let s' := setups new_OpenAI createOpenAI calls s in
  (∃ client, LLM.openAI s' = Some client
             ∧ LLM.models models_list s' = models_list client)
  ∧ (∃ provider, LLM.openAIProvider s' = Some provider
                 ∧ ∀ model content,
                     LLM.stream streamText model content s'
                     = streamText provider model content).
Proof.
  intros Hclient Hprovider s'. subst s'.
  assert (is_Some (LLM.openAI (setups new_OpenAI createOpenAI calls s))
          ∧ is_Some (LLM.openAIProvider (setups new_OpenAI createOpenAI calls s)))
    as [[client Hc] [provider Hp]].
  { revert s Hclient Hprovider.
    induction calls as [| options rest IH]; intros s Hclient Hprovider; [done |].
    cbn. destruct (setupOpenAI_keeps_refs options s) as (H1 & H2 & _).
    apply IH; auto. }
  split.
  - exists client. split; [done |]. unfold LLM.models. by rewrite Hc.
  - exists provider. split; [done |]. intros. unfold LLM.stream. by rewrite Hp.
Qed.

End LLMRuns.

(** An SDK that rejects options without a credential, and the initial
    store after one successful setup. *)
Lemma setups_stay_initialized_example :
  let needs_key := λ options : gmap string JsVal,
    if truthy (prop options "apiKey") then None else Some (Error "missing apiKey") in
  let s' := setups needs_key (λ _, None) [∅; {[ "apiKey" := JStr "sk-2" ]}; ∅]
              (LLM.setupOpenAI needs_key (λ _, None) {[ "apiKey" := JStr "sk-1" ]}
                 LLM.initial).1 in
  (∃ client, LLM.openAI s' = Some client
             ∧ LLM.models (λ _, Returned ()) s' = Returned ())
  ∧ (∃ provider, LLM.openAIProvider s' = Some provider
                 ∧ ∀ model content : string,
                     LLM.stream (λ _ _ _, Returned ()) model content s' = Returned ()).
Proof.
  cbv zeta.
  apply (setups_stay_initialized _ (λ _, None) (λ _ _ _, Returned ())
           (λ _, Returned ())); by eexists.
Defined.

Lemma setupOpenAI_then_calls_example :
  let options : gmap string JsVal :=
    {[ "apiKey" := JStr "sk-1"; "dangerouslyAllowBrowser" := JBool false ]} in
  let s' := (LLM.setupOpenAI (λ _, None) (λ _, None) options LLM.initial).1 in
  (∀ model content,
     LLM.stream (λ h _ _, Returned (LLM.settings h)) model content s'
     = Returned options)
  ∧ (∃ client,
       LLM.models (λ h, Returned (LLM.settings h)) s' = Returned (LLM.settings client)
       ∧ LLM.address client = 0
       ∧ LLM.settings client !! "dangerouslyAllowBrowser" = Some (JBool true)
       ∧ ∀ k, k ≠ "dangerouslyAllowBrowser" →
              LLM.settings client !! k = options !! k).
Proof.
  cbv zeta.
  exact (setupOpenAI_then_calls (λ _, None) (λ _, None)
           (λ h _ _, Returned (LLM.settings h)) (λ h, Returned (LLM.settings h))
           {[ "apiKey" := JStr "sk-1"; "dangerouslyAllowBrowser" := JBool false ]}
           LLM.initial eq_refl eq_refl).
Defined.

(** ** When the setters throw *)

Lemma not_absent_or_object (v : JsVal) :
  absent_or_object v = false →
  truthy v = true ∧ ∀ k w, assign v k w = Thrown TypeError.
Proof.
  unfold absent_or_object. destruct (truthy v) eqn:Ht; [| done].
  destruct v; cbn; try done.
Qed.

Lemma not_object_opt (v : JsVal) (k : string) :
  is_obj v = false → opt v k = JUndefined.
Proof. by destruct v. Qed.

(** X5: the exact condition under which a setter completes.  A setter
    returns when every slot it assigns into (the provider's record, and
    [voiceSettings] for the four setters that write into it) is absent or
    an object; otherwise, for any truthy value that is not an object in
    such a slot, it throws a [TypeError]. *)
Theorem setter_returns_iff_assignable
    (s : Setting) (value : JsVal) (providers : gmap string JsVal) :
  if can_assign s providers
  then ∃ providers', setter s value providers = Returned providers'
  else setter s value providers = Thrown TypeError.
Proof.
  unfold can_assign.
  destruct (absent_or_object (record providers)) eqn:Hrec; cbn [andb].
  - destruct (absent_or_object (opt (record providers) "voiceSettings")) eqn:Hvs.
    + assert (∃ providers', setter s value providers = Returned providers')
        as Hok.
      { destruct (setter_preserves_layout s value providers (conj Hrec Hvs))
          as (p & Hp & _). by exists p. }
      by destruct (assigns_into_voiceSettings s).
    + destruct (not_absent_or_object _ Hvs) as [Ht Hthrow].
      assert (∃ r, record providers = JObj r) as [r Hr]
        by (destruct (record providers); cbn in Ht; try done; by eexists).
      assert (ensure_voiceSettings (ensure_record providers) = Returned providers)
        as Hguard.
      { apply (guards_stable providers r Hr). by rewrite Hr in Ht. }
      destruct s; cbn [assigns_into_voiceSettings written_path setter];
        unfold apiKey_set, baseUrl_set, similarityBoost_set, stability_set,
          speed_set, style_set, useSpeakerBoost_set;
        rewrite ?Hguard; cbn [mbind outcome_bind];
        try (rewrite (assign_record_after_guard _ _ _ Hrec); by eexists);
        try (unfold assign_voice; by rewrite Hthrow).
      unfold assign_record. rewrite Hr. cbn. by eexists.
  - destruct (not_absent_or_object _ Hrec) as [Ht Hthrow].
    assert (is_obj (record providers) = false) as Hno
      by (unfold absent_or_object in Hrec; by destruct (is_obj _), (truthy _)).
    assert (∀ k v, assign_record k v (ensure_record providers) = Thrown TypeError)
      as Hrecord.
    { intros k v. unfold ensure_record. rewrite Ht. unfold assign_record.
      by rewrite Hthrow. }
    assert (ensure_voiceSettings (ensure_record providers) = Thrown TypeError)
      as Hguard.
    { unfold ensure_voiceSettings.
      replace (opt (record (ensure_record providers)) "voiceSettings")
        with JUndefined; [apply Hrecord |].
      unfold ensure_record. rewrite Ht. symmetry. by apply not_object_opt. }
    destruct s; cbn [setter];
      unfold apiKey_set, baseUrl_set, similarityBoost_set, stability_set,
        speed_set, style_set, useSpeakerBoost_set;
      rewrite ?Hguard, ?Hrecord; done.
Qed.

(** The [speed] setter on a record whose [voiceSettings] is a string, and
    the [apiKey] setter beside it. *)
Lemma setter_returns_iff_assignable_example :
  let providers : gmap string JsVal :=
    {[ providerId := JObj {[ "voiceSettings" := JStr "loud" ]} ]} in
  setter Speed (JNum 1.1) providers = Thrown TypeError
  ∧ ∃ providers', setter ApiKey (JStr "k") providers = Returned providers'.
Proof.
  cbv zeta. split.
  - exact (setter_returns_iff_assignable Speed (JNum 1.1)
             {[ providerId := JObj {[ "voiceSettings" := JStr "loud" ]} ]}).
  - exact (setter_returns_iff_assignable ApiKey (JStr "k")
             {[ providerId := JObj {[ "voiceSettings" := JStr "loud" ]} ]}).
Defined.

(** ** Samples for the round trip and the allocation of clients *)

Lemma voice_set_then_get_example :
  ∃ providers',
    setter Stability (JNum 0.8) ∅ = Returned providers'
    ∧ getter None Stability providers' = JNum 0.8.
Proof.
  apply (voice_set_then_get None Stability "stability" (JNum 0.8) ∅);
    [reflexivity | split; reflexivity | reflexivity].
Defined.

Lemma setupOpenAI_allocates_anew_example :
  let first := (LLM.setupOpenAI (λ _, None) (λ _, None) ∅ LLM.initial).1 in
  let second := (LLM.setupOpenAI (λ _, None) (λ _, None) ∅ first).1 in
  ∃ old new,
    LLM.openAI first = Some old
    ∧ LLM.openAI second = Some new
    ∧ LLM.settings new = LLM.settings old
    ∧ LLM.address new ≠ LLM.address old.
Proof.
  cbv zeta. eexists _, _.
  split; [reflexivity |]. split; [reflexivity |]. split; [reflexivity |].
  apply (setupOpenAI_allocates_anew (λ _, None) (λ _, None) ∅
           (LLM.setupOpenAI (λ _, None) (λ _, None) ∅ LLM.initial).1
           (LLM.setupOpenAI (λ _, None) (λ _, None) ∅
              (LLM.setupOpenAI (λ _, None) (λ _, None) ∅ LLM.initial).1).1).
  - apply handles_ok_setupOpenAI, handles_ok_initial.
  - reflexivity.
  - left. reflexivity.
  - left. reflexivity.
Defined.
